(** * FHEVMContract: the confidential ledger and the Higher/Lower game

    A shallow embedding of [FHEVMContract] (Solidity ^0.8.24).  Every
    external function of the contract is a computation in a state-and-revert
    monad over the contract's storage; the FHE library and the hash function
    the contract calls are interfaces. *)

From Stdlib Require Import ZArith List Lia Bool String.
From Stdlib Require Import Strings.Byte.
From stdpp Require Import base option gmap.

Local Open Scope Z_scope.

(** ** Solidity value types *)

Abbreviation address := Z (only parsing).
Abbreviation uint256 := Z (only parsing).
Abbreviation uint8 := Z (only parsing).
Abbreviation bytes32 := Z (only parsing).
Abbreviation bytes := (list byte) (only parsing).
Abbreviation externalEuint32 := Z (only parsing).

Definition MAX_UINT256 : Z := 2 ^ 256 - 1.
Definition MOD32 : Z := 2 ^ 32.

(** Explicit narrowing casts truncate. *)
Definition to_uint8 (x : Z) : uint8 := x mod 2 ^ 8.
Definition to_uint32 (x : Z) : Z := x mod MOD32.
Definition to_uint256 (x : Z) : uint256 := x mod 2 ^ 256.

(** ** abi.encodePacked *)

Definition byte_of_Z (z : Z) : byte :=
  match Byte.of_N (Z.to_N (z mod 256)) with
  | Some b => b
  | None => x00
  end.

(** The [n] low-order bytes of [v], most significant first. *)
Fixpoint be_bytes (n : nat) (v : Z) : bytes :=
  match n with
  | O => []
  | S k => be_bytes k (v / 256) ++ [byte_of_Z v]
  end.

Definition enc_uint256 (v : uint256) : bytes := be_bytes 32 v.
Definition enc_bytes32 (v : bytes32) : bytes := be_bytes 32 v.
Definition enc_address (a : address) : bytes := be_bytes 20 a.
Definition enc_uint8 (v : uint8) : bytes := be_bytes 1 v.

(** ** The FHE library *)

(** Modelled from the spec: the library [@fhevm/solidity/lib/FHE.sol] the
    contract imports ([euint32], [ebool], [FHE.add], [FHE.sub], [FHE.mul],
    [FHE.asEuint32], [FHE.asEbool], [FHE.fromExternal]) is not part of the
    sources.  Following sections 4.1 and 9 of the specification it is an
    abstract algebra of opaque handles whose operations are homomorphic to
    arithmetic modulo 2^32; [plain32] and [plainb] are the decryption oracle,
    which no contract function calls.  [null] is the zero value a storage slot
    of type [euint32] or [ebool] holds before it is first written; it decrypts
    to zero.  [fromExternal] is the proof verifier: [None] rejects. *)
Class FHE := {
  handle : Type;
  #[global] handle_eq_dec :: EqDecision handle;
  #[global] handle_countable :: Countable handle;
  null : handle;
  asEuint32 : Z → handle;
  asEbool : bool → handle;
  fromExternal : externalEuint32 → bytes → option handle;
  add : handle → handle → handle;
  sub : handle → handle → handle;
  mul : handle → handle → handle;
  plain32 : handle → Z;
  plainb : handle → bool;
  plain32_range h : 0 ≤ plain32 h < MOD32;
  plain32_null : plain32 null = 0;
  plainb_null : plainb null = false;
  plain32_asEuint32 v : plain32 (asEuint32 v) = v mod MOD32;
  plainb_asEbool b : plainb (asEbool b) = b;
  plain32_add a b : plain32 (add a b) = (plain32 a + plain32 b) mod MOD32;
  plain32_sub a b : plain32 (sub a b) = (plain32 a - plain32 b) mod MOD32;
  plain32_mul a b : plain32 (mul a b) = (plain32 a * plain32 b) mod MOD32;
}.

(** ** A reference implementation of the FHE interface

    Handles are the terms of the operations that produced them, so two
    handles are equal exactly when they were computed the same way; the
    decryption oracle evaluates the term.  The verifier accepts any input
    that comes with a non-empty proof, and an accepted input decrypts to its
    low 32 bits. *)
Module RefFHE.

Inductive term :=
| Null
| Lit32 (v : Z)
| LitBool (b : bool)
| Input (ext : Z)
| Add (a b : term)
| Sub (a b : term)
| Mul (a b : term).

Fixpoint eval32 (t : term) : Z :=
  match t with
  | Null => 0
  | Lit32 v => v mod MOD32
  | LitBool b => Z.b2z b
  | Input ext => ext mod MOD32
  | Add a b => (eval32 a + eval32 b) mod MOD32
  | Sub a b => (eval32 a - eval32 b) mod MOD32
  | Mul a b => (eval32 a * eval32 b) mod MOD32
  end.

Definition evalb (t : term) : bool := negb (eval32 t =? 0).

Definition verify (ext : Z) (proof : list byte) : option term :=
  match proof with
  | [] => None
  | _ :: _ => Some (Input ext)
  end.

Fixpoint to_tree (t : term) : gen_tree (Z + bool) :=
  match t with
  | Null => GenNode 0 []
  | Lit32 v => GenNode 1 [GenLeaf (inl v)]
  | LitBool b => GenNode 2 [GenLeaf (inr b)]
  | Input ext => GenNode 3 [GenLeaf (inl ext)]
  | Add a b => GenNode 4 [to_tree a; to_tree b]
  | Sub a b => GenNode 5 [to_tree a; to_tree b]
  | Mul a b => GenNode 6 [to_tree a; to_tree b]
  end.

Fixpoint of_tree (g : gen_tree (Z + bool)) : term :=
  match g with
  | GenNode 1 [GenLeaf (inl v)] => Lit32 v
  | GenNode 2 [GenLeaf (inr b)] => LitBool b
  | GenNode 3 [GenLeaf (inl ext)] => Input ext
  | GenNode 4 [a; b] => Add (of_tree a) (of_tree b)
  | GenNode 5 [a; b] => Sub (of_tree a) (of_tree b)
  | GenNode 6 [a; b] => Mul (of_tree a) (of_tree b)
  | _ => Null
  end.

Lemma of_to_tree t : of_tree (to_tree t) = t.
Proof. induction t; simpl; congruence. Qed.

#[global] Instance term_eq_dec : EqDecision term.
Proof. solve_decision. Defined.

#[global] Instance term_countable : Countable term :=
  inj_countable' to_tree of_tree of_to_tree.

Lemma eval32_range t : 0 ≤ eval32 t < MOD32.
Proof.
  assert (0 < MOD32) by (unfold MOD32; lia).
  destruct t; simpl; try (apply Z.mod_pos_bound; assumption).
  - lia.
  - destruct b; unfold MOD32; simpl; lia.
Qed.

Lemma evalb_LitBool b : evalb (LitBool b) = b.
Proof. destruct b; reflexivity. Qed.

Definition fhe : FHE := {|
  handle := term;
  null := Null;
  asEuint32 := Lit32;
  asEbool := LitBool;
  fromExternal := verify;
  add := Add;
  sub := Sub;
  mul := Mul;
  plain32 := eval32;
  plainb := evalb;
  plain32_range := eval32_range;
  plain32_null := eq_refl;
  plainb_null := eq_refl;
  plain32_asEuint32 := λ _, eq_refl;
  plainb_asEbool := evalb_LitBool;
  plain32_add := λ _ _, eq_refl;
  plain32_sub := λ _ _, eq_refl;
  plain32_mul := λ _ _, eq_refl;
|}.

(** A stand-in for the hash: the length of the packed input.  Any function
    serves the model; this one makes draws easy to trace by hand. *)
Definition len_hash (packed : list byte) : Z := Z.of_nat (length packed).

(** The contract's own address in the examples. *)
Definition self : Z := 1000.

End RefFHE.

(** ** Storage *)

Module Game.
Record t `{FHE} := mk {
  player : address;
  wager : handle;
  currentCard : uint8;
  score : handle;
  isActive : bool;
  timestamp : uint256;
  gameSecret : bytes32;
}.
(** The value of a mapping entry never written. *)
Definition zero `{FHE} : t := mk _ 0 null 0 null false 0 0.
End Game.

Module SimpleGame.
Record t := mk {
  player : address;
  wager : uint256;
  currentCard : uint8;
  score : uint256;
  isActive : bool;
  timestamp : uint256;
  gameSecret : bytes32;
}.
Definition zero : t := mk 0 0 0 0 false 0 0.
End SimpleGame.

Inductive Event :=
| EncryptedDeposit (user : address) (timestamp : uint256)
| EncryptedOperation (user : address) (operation : string) (timestamp : uint256)
| PermissionGranted (user : address) (dataType : string) (timestamp : uint256)
| GameStarted (player : address) (startingCard : uint8) (timestamp : uint256)
| GameResult (player : address) (newCard : uint8) (won : bool) (score : uint256)
    (timestamp : uint256)
| GameEnded (player : address) (timestamp : uint256)
| DepositMade (player : address) (timestamp : uint256)
| WithdrawalMade (player : address) (timestamp : uint256).

(** The contract's storage, the access-control list of the FHE library (the
    pairs (handle, account) that may decrypt) and the event log. *)
Record State `{FHE} := mkState {
  encryptedBalances : gmap address handle;
  encryptedScores : gmap address handle;
  encryptedFlags : gmap address handle;
  hasDeposit : gmap address bool;
  lastActivity : gmap address uint256;
  simpleBalances : gmap address uint256;
  games : gmap address Game.t;
  simpleGames : gmap address SimpleGame.t;
  acl : gset (handle * address);
  events : list Event;
}.

(** The transaction context of a call. *)
Record Msg := mkMsg { sender : address; value : uint256 }.
Record Block := mkBlock {
  timestamp : uint256;
  prevrandao : uint256;
  number : uint256;
}.

Inductive Error :=
| RequireFailed (reason : string)
| ProofVerificationFailed
| Panic (code : Z)
| NonPayable.

Inductive Result (A : Type) :=
| Ok (a : A)
| Err (e : Error).
Arguments Ok {A} a.
Arguments Err {A} e.

(** The error names of the specification, as the revert reasons of the code. *)
Definition ZeroValueDeposit : Error := RequireFailed "Must send ETH with deposit".
Definition SelfTransferNotAllowed : Error := RequireFailed "Cannot transfer to self".
Definition NoDepositOnRecord : Error := RequireFailed "No balance available".
Definition MustHaveDeposit : Error := RequireFailed "Must have deposit first".
Definition InsufficientBalance : Error := RequireFailed "Insufficient balance".
Definition GameAlreadyActive : Error := RequireFailed "Game already in progress".
Definition NoActiveGame : Error := RequireFailed "No active game".
(** Panic(0x11): arithmetic overflow or underflow in checked arithmetic. *)
Definition Overflow : Error := Panic 17.

Section Contract.
Context `{fhe : FHE}.
Set Default Proof Using "Type".

(** [keccak256] is the EVM's hash, [this] the contract's own address. *)
Variable keccak256 : bytes → bytes32.
Variable this : address.

(** *** Reading a mapping: an absent key reads as the zero value. *)
Definition rd {V} (zero : V) (m : gmap address V) (a : address) : V :=
  default zero (m !! a).

Definition balanceOf (s : State) a := rd null s.(encryptedBalances) a.
Definition scoreOf (s : State) a := rd null s.(encryptedScores) a.
Definition flagOf (s : State) a := rd null s.(encryptedFlags) a.
Definition hasDepositOf (s : State) a := rd false s.(hasDeposit) a.
Definition lastActivityOf (s : State) a := rd 0 s.(lastActivity) a.
Definition simpleBalanceOf (s : State) a := rd 0 s.(simpleBalances) a.
Definition gameOf (s : State) a := rd Game.zero s.(games) a.
Definition simpleGameOf (s : State) a := rd SimpleGame.zero s.(simpleGames) a.

(** *** Writing a storage variable *)
Definition set_encryptedBalances f (s : State) : State :=
  mkState _ (f s.(encryptedBalances)) s.(encryptedScores) s.(encryptedFlags)
    s.(hasDeposit) s.(lastActivity) s.(simpleBalances) s.(games) s.(simpleGames)
    s.(acl) s.(events).
Definition set_encryptedScores f (s : State) : State :=
  mkState _ s.(encryptedBalances) (f s.(encryptedScores)) s.(encryptedFlags)
    s.(hasDeposit) s.(lastActivity) s.(simpleBalances) s.(games) s.(simpleGames)
    s.(acl) s.(events).
Definition set_encryptedFlags f (s : State) : State :=
  mkState _ s.(encryptedBalances) s.(encryptedScores) (f s.(encryptedFlags))
    s.(hasDeposit) s.(lastActivity) s.(simpleBalances) s.(games) s.(simpleGames)
    s.(acl) s.(events).
Definition set_hasDeposit f (s : State) : State :=
  mkState _ s.(encryptedBalances) s.(encryptedScores) s.(encryptedFlags)
    (f s.(hasDeposit)) s.(lastActivity) s.(simpleBalances) s.(games) s.(simpleGames)
    s.(acl) s.(events).
Definition set_lastActivity f (s : State) : State :=
  mkState _ s.(encryptedBalances) s.(encryptedScores) s.(encryptedFlags)
    s.(hasDeposit) (f s.(lastActivity)) s.(simpleBalances) s.(games) s.(simpleGames)
    s.(acl) s.(events).
Definition set_simpleBalances f (s : State) : State :=
  mkState _ s.(encryptedBalances) s.(encryptedScores) s.(encryptedFlags)
    s.(hasDeposit) s.(lastActivity) (f s.(simpleBalances)) s.(games) s.(simpleGames)
    s.(acl) s.(events).
Definition set_games f (s : State) : State :=
  mkState _ s.(encryptedBalances) s.(encryptedScores) s.(encryptedFlags)
    s.(hasDeposit) s.(lastActivity) s.(simpleBalances) (f s.(games)) s.(simpleGames)
    s.(acl) s.(events).
Definition set_simpleGames f (s : State) : State :=
  mkState _ s.(encryptedBalances) s.(encryptedScores) s.(encryptedFlags)
    s.(hasDeposit) s.(lastActivity) s.(simpleBalances) s.(games) (f s.(simpleGames))
    s.(acl) s.(events).
Definition set_acl f (s : State) : State :=
  mkState _ s.(encryptedBalances) s.(encryptedScores) s.(encryptedFlags)
    s.(hasDeposit) s.(lastActivity) s.(simpleBalances) s.(games) s.(simpleGames)
    (f s.(acl)) s.(events).
Definition set_events f (s : State) : State :=
  mkState _ s.(encryptedBalances) s.(encryptedScores) s.(encryptedFlags)
    s.(hasDeposit) s.(lastActivity) s.(simpleBalances) s.(games) s.(simpleGames)
    s.(acl) (f s.(events)).

(** *** The monad of a call

    A call runs on the storage and either returns a value with the new
    storage or reverts; a revert discards every write of the call. *)
Definition M (A : Type) : Type := State → Result (A * State).

#[global] Instance M_ret : MRet M := λ A a s, Ok (a, s).
#[global] Instance M_bind : MBind M := λ A B f m s,
  match m s with
  | Ok (a, s') => f a s'
  | Err e => Err e
  end.

Definition revert {A} (e : Error) : M A := λ _, Err e.
Definition require (cond : bool) (reason : string) : M unit :=
  if cond then mret tt else revert (RequireFailed reason).
Definition gets {A} (f : State → A) : M A := λ s, Ok (f s, s).
Definition modify (f : State → State) : M unit := λ s, Ok (tt, f s).
Definition emit (e : Event) : M unit := modify (set_events (λ l, l ++ [e])).

(** Checked arithmetic on [uint256]: Solidity 0.8 reverts with Panic(0x11). *)
Definition checked_add (a b : uint256) : M uint256 :=
  if a + b <=? MAX_UINT256 then mret (a + b) else revert Overflow.
Definition checked_sub (a b : uint256) : M uint256 :=
  if b <=? a then mret (a - b) else revert Overflow.
Definition checked_mul (a b : uint256) : M uint256 :=
  if a * b <=? MAX_UINT256 then mret (a * b) else revert Overflow.

(** *** Calls into the FHE library *)

(** [FHE.fromExternal] reverts when the verifier rejects the proof. *)
Definition FHE_fromExternal (input : externalEuint32) (inputProof : bytes) : M handle :=
  match fromExternal input inputProof with
  | Some h => mret h
  | None => revert ProofVerificationFailed
  end.

(** Modelled from the spec: [FHE.allow] and [FHE.allowThis] of the absent FHE
    library.  By section 4.2 of the specification a grant idempotently adds
    the pair (handle, principal) to an append-only relation. *)
Definition FHE_allow (h : handle) (account : address) : M unit :=
  modify (set_acl (λ g, {[ (h, account) ]} ∪ g)).
Definition FHE_allowThis (h : handle) : M unit := FHE_allow h this.

Definition isAllowed (s : State) (h : handle) (account : address) : Prop :=
  (h, account) ∈ s.(acl).

#[global] Instance isAllowed_dec s h account : Decision (isAllowed s h account).
Proof. unfold isAllowed. apply _. Defined.

(** The two grants a current handle of [owner] must carry: the contract
    itself and the owning principal. *)
Definition granted (s : State) (h : handle) (owner : address) : Prop :=
  isAllowed s h this ∧ isAllowed s h owner.

(** *** Storage accessors in the monad *)
Definition write_balance (a : address) (h : handle) : M unit :=
  modify (set_encryptedBalances <[a := h]>).
Definition write_score (a : address) (h : handle) : M unit :=
  modify (set_encryptedScores <[a := h]>).
Definition write_flag (a : address) (h : handle) : M unit :=
  modify (set_encryptedFlags <[a := h]>).
Definition write_hasDeposit (a : address) (b : bool) : M unit :=
  modify (set_hasDeposit <[a := b]>).
Definition write_lastActivity (a : address) (t : uint256) : M unit :=
  modify (set_lastActivity <[a := t]>).
Definition write_simpleBalance (a : address) (v : uint256) : M unit :=
  modify (set_simpleBalances <[a := v]>).
Definition write_game (a : address) (g : Game.t) : M unit :=
  modify (set_games <[a := g]>).
Definition write_simpleGame (a : address) (g : SimpleGame.t) : M unit :=
  modify (set_simpleGames <[a := g]>).

(** Assignments to one field of a game record held in storage. *)
Definition game_set_score (g : Game.t) (h : handle) : Game.t :=
  Game.mk _ g.(Game.player) g.(Game.wager) g.(Game.currentCard) h
    g.(Game.isActive) g.(Game.timestamp) g.(Game.gameSecret).
Definition game_set_currentCard (g : Game.t) (c : uint8) : Game.t :=
  Game.mk _ g.(Game.player) g.(Game.wager) c g.(Game.score)
    g.(Game.isActive) g.(Game.timestamp) g.(Game.gameSecret).
Definition game_set_isActive (g : Game.t) (b : bool) : Game.t :=
  Game.mk _ g.(Game.player) g.(Game.wager) g.(Game.currentCard) g.(Game.score)
    b g.(Game.timestamp) g.(Game.gameSecret).
Definition simpleGame_set_score (g : SimpleGame.t) (v : uint256) : SimpleGame.t :=
  SimpleGame.mk g.(SimpleGame.player) g.(SimpleGame.wager) g.(SimpleGame.currentCard) v
    g.(SimpleGame.isActive) g.(SimpleGame.timestamp) g.(SimpleGame.gameSecret).
Definition simpleGame_set_currentCard (g : SimpleGame.t) (c : uint8) : SimpleGame.t :=
  SimpleGame.mk g.(SimpleGame.player) g.(SimpleGame.wager) c g.(SimpleGame.score)
    g.(SimpleGame.isActive) g.(SimpleGame.timestamp) g.(SimpleGame.gameSecret).
Definition simpleGame_set_isActive (g : SimpleGame.t) (b : bool) : SimpleGame.t :=
  SimpleGame.mk g.(SimpleGame.player) g.(SimpleGame.wager) g.(SimpleGame.currentCard)
    g.(SimpleGame.score) b g.(SimpleGame.timestamp) g.(SimpleGame.gameSecret).

(** *** Card draws: [uint8((uint256(keccak256(packed)) % 13) + 1)] *)
Definition card_of_hash (packed : bytes) : uint8 :=
  to_uint8 (to_uint256 (keccak256 packed) mod 13 + 1).

Definition startGame_packed (msg : Msg) (block : Block) : bytes :=
  enc_uint256 block.(timestamp) ++ enc_uint256 block.(prevrandao)
    ++ enc_address msg.(sender) ++ enc_uint256 block.(number).
Definition makeGuess_packed (msg : Msg) (block : Block) (secret : bytes32) : bytes :=
  enc_uint256 block.(timestamp) ++ enc_uint256 block.(prevrandao)
    ++ enc_address msg.(sender) ++ enc_bytes32 secret ++ enc_uint256 block.(number).
Definition simpleStartGame_packed (msg : Msg) (block : Block) : bytes :=
  enc_uint256 block.(timestamp) ++ enc_uint256 block.(prevrandao)
    ++ enc_address msg.(sender).
Definition simpleMakeGuess_packed (msg : Msg) (block : Block) (secret : bytes32) : bytes :=
  enc_uint256 block.(timestamp) ++ enc_uint256 block.(prevrandao)
    ++ enc_address msg.(sender) ++ enc_bytes32 secret.
(** [keccak256(abi.encodePacked(block.timestamp, msg.sender, currentCard))] *)
Definition secret_of (msg : Msg) (block : Block) (currentCard : uint8) : bytes32 :=
  keccak256 (enc_uint256 block.(timestamp) ++ enc_address msg.(sender)
               ++ enc_uint8 currentCard).

(** *** Core FHEVM demo functions *)

Definition depositEncrypted (msg : Msg) (block : Block)
    (_encryptedAmount : externalEuint32) (inputProof : bytes) : M unit :=
  require (0 <? msg.(value)) "Must send ETH with deposit" ;;
  amount ← FHE_fromExternal _encryptedAmount inputProof ;
  bal ← gets (λ s, balanceOf s msg.(sender)) ;
  write_balance msg.(sender) (add bal amount) ;;
  h ← gets (λ s, balanceOf s msg.(sender)) ;
  FHE_allowThis h ;;
  h ← gets (λ s, balanceOf s msg.(sender)) ;
  FHE_allow h msg.(sender) ;;
  write_hasDeposit msg.(sender) true ;;
  write_lastActivity msg.(sender) block.(timestamp) ;;
  emit (EncryptedDeposit msg.(sender) block.(timestamp)) ;;
  emit (PermissionGranted msg.(sender) "balance" block.(timestamp)).

Definition simpleDeposit (msg : Msg) (block : Block) : M unit :=
  require (0 <? msg.(value)) "Must send ETH with deposit" ;;
  bal ← gets (λ s, simpleBalanceOf s msg.(sender)) ;
  bal' ← checked_add bal msg.(value) ;
  write_simpleBalance msg.(sender) bal' ;;
  write_hasDeposit msg.(sender) true ;;
  write_lastActivity msg.(sender) block.(timestamp) ;;
  emit (DepositMade msg.(sender) block.(timestamp)).

Definition fhevmDeposit (msg : Msg) (block : Block) : M unit :=
  require (0 <? msg.(value)) "Must send ETH with deposit" ;;
  let amountWei := msg.(value) in
  let encryptedAmount := asEuint32 (to_uint32 (amountWei / 10 ^ 14)) in
  bal ← gets (λ s, balanceOf s msg.(sender)) ;
  write_balance msg.(sender) (add bal encryptedAmount) ;;
  write_hasDeposit msg.(sender) true ;;
  h ← gets (λ s, balanceOf s msg.(sender)) ;
  FHE_allowThis h ;;
  h ← gets (λ s, balanceOf s msg.(sender)) ;
  FHE_allow h msg.(sender) ;;
  emit (DepositMade msg.(sender) block.(timestamp)).

Definition performArithmetic (msg : Msg) (block : Block)
    (_encryptedA _encryptedB : externalEuint32) (proofA proofB : bytes) : M unit :=
  a ← FHE_fromExternal _encryptedA proofA ;
  b ← FHE_fromExternal _encryptedB proofB ;
  let sum := add a b in
  let difference := sub a b in
  let product := mul a b in
  write_score msg.(sender) (add sum (add difference product)) ;;
  h ← gets (λ s, scoreOf s msg.(sender)) ;
  FHE_allowThis h ;;
  h ← gets (λ s, scoreOf s msg.(sender)) ;
  FHE_allow h msg.(sender) ;;
  write_lastActivity msg.(sender) block.(timestamp) ;;
  emit (EncryptedOperation msg.(sender) "arithmetic" block.(timestamp)).

Definition transferEncrypted (msg : Msg) (block : Block)
    (to : address) (_encryptedAmount : externalEuint32) (inputProof : bytes) : M unit :=
  require (negb (bool_decide (to = msg.(sender)))) "Cannot transfer to self" ;;
  dep ← gets (λ s, hasDepositOf s msg.(sender)) ;
  require dep "No balance available" ;;
  amount ← FHE_fromExternal _encryptedAmount inputProof ;
  bal ← gets (λ s, balanceOf s msg.(sender)) ;
  write_balance msg.(sender) (sub bal amount) ;;
  balTo ← gets (λ s, balanceOf s to) ;
  write_balance to (add balTo amount) ;;
  h ← gets (λ s, balanceOf s msg.(sender)) ;
  FHE_allowThis h ;;
  h ← gets (λ s, balanceOf s msg.(sender)) ;
  FHE_allow h msg.(sender) ;;
  h ← gets (λ s, balanceOf s to) ;
  FHE_allowThis h ;;
  h ← gets (λ s, balanceOf s to) ;
  FHE_allow h to ;;
  write_hasDeposit to true ;;
  write_lastActivity msg.(sender) block.(timestamp) ;;
  write_lastActivity to block.(timestamp) ;;
  emit (EncryptedOperation msg.(sender) "transfer" block.(timestamp)).

Definition setEncryptedFlag (msg : Msg) (block : Block) (flag : bool) : M unit :=
  write_flag msg.(sender) (asEbool flag) ;;
  h ← gets (λ s, flagOf s msg.(sender)) ;
  FHE_allowThis h ;;
  h ← gets (λ s, flagOf s msg.(sender)) ;
  FHE_allow h msg.(sender) ;;
  write_lastActivity msg.(sender) block.(timestamp) ;;
  emit (EncryptedOperation msg.(sender) "set_flag" block.(timestamp)).

Definition incrementScore (msg : Msg) (block : Block) : M unit :=
  dep ← gets (λ s, hasDepositOf s msg.(sender)) ;
  require dep "Must have deposit first" ;;
  let increment := asEuint32 1 in
  sc ← gets (λ s, scoreOf s msg.(sender)) ;
  write_score msg.(sender) (add sc increment) ;;
  h ← gets (λ s, scoreOf s msg.(sender)) ;
  FHE_allowThis h ;;
  h ← gets (λ s, scoreOf s msg.(sender)) ;
  FHE_allow h msg.(sender) ;;
  write_lastActivity msg.(sender) block.(timestamp) ;;
  emit (EncryptedOperation msg.(sender) "increment" block.(timestamp)).

(** *** Higher/Lower game on the encrypted ledger *)

Definition startGame (msg : Msg) (block : Block)
    (_encryptedWager : externalEuint32) (inputProof : bytes) : M unit :=
  g ← gets (λ s, gameOf s msg.(sender)) ;
  require (negb g.(Game.isActive)) "Game already in progress" ;;
  dep ← gets (λ s, hasDepositOf s msg.(sender)) ;
  require dep "No balance available" ;;
  wager ← FHE_fromExternal _encryptedWager inputProof ;
  bal ← gets (λ s, balanceOf s msg.(sender)) ;
  write_balance msg.(sender) (sub bal wager) ;;
  let currentCard := card_of_hash (startGame_packed msg block) in
  write_game msg.(sender)
    (Game.mk _ msg.(sender) wager currentCard (asEuint32 0) true
       block.(timestamp) (secret_of msg block currentCard)) ;;
  g ← gets (λ s, gameOf s msg.(sender)) ;
  FHE_allowThis g.(Game.wager) ;;
  g ← gets (λ s, gameOf s msg.(sender)) ;
  FHE_allow g.(Game.wager) msg.(sender) ;;
  g ← gets (λ s, gameOf s msg.(sender)) ;
  FHE_allowThis g.(Game.score) ;;
  g ← gets (λ s, gameOf s msg.(sender)) ;
  FHE_allow g.(Game.score) msg.(sender) ;;
  h ← gets (λ s, balanceOf s msg.(sender)) ;
  FHE_allowThis h ;;
  h ← gets (λ s, balanceOf s msg.(sender)) ;
  FHE_allow h msg.(sender) ;;
  emit (GameStarted msg.(sender) currentCard block.(timestamp)).

(** [correct = isHigher ? newCard > currentCard : newCard < currentCard] *)
Definition guess_correct (isHigher : bool) (newCard currentCard : uint8) : bool :=
  if isHigher then currentCard <? newCard else newCard <? currentCard.

Definition makeGuess (msg : Msg) (block : Block) (isHigher : bool)
    : M (bool * uint8) :=
  game ← gets (λ s, gameOf s msg.(sender)) ;
  require game.(Game.isActive) "No active game" ;;
  let newCard := card_of_hash (makeGuess_packed msg block game.(Game.gameSecret)) in
  let correct := guess_correct isHigher newCard game.(Game.currentCard) in
  (if correct then
     game ← gets (λ s, gameOf s msg.(sender)) ;
     write_game msg.(sender)
       (game_set_score game (add game.(Game.score) (asEuint32 1))) ;;
     game ← gets (λ s, gameOf s msg.(sender)) ;
     write_game msg.(sender) (game_set_currentCard game newCard) ;;
     let multiplier := asEuint32 2 in
     game ← gets (λ s, gameOf s msg.(sender)) ;
     let winnings := mul game.(Game.wager) multiplier in
     bal ← gets (λ s, balanceOf s msg.(sender)) ;
     write_balance msg.(sender) (add bal winnings) ;;
     h ← gets (λ s, balanceOf s msg.(sender)) ;
     FHE_allowThis h ;;
     h ← gets (λ s, balanceOf s msg.(sender)) ;
     FHE_allow h msg.(sender) ;;
     game ← gets (λ s, gameOf s msg.(sender)) ;
     FHE_allowThis game.(Game.score) ;;
     game ← gets (λ s, gameOf s msg.(sender)) ;
     FHE_allow game.(Game.score) msg.(sender) ;;
     emit (GameResult msg.(sender) newCard true 0 block.(timestamp))
   else
     game ← gets (λ s, gameOf s msg.(sender)) ;
     write_game msg.(sender) (game_set_isActive game false) ;;
     emit (GameResult msg.(sender) newCard false 0 block.(timestamp))) ;;
  mret (correct, newCard).

Definition cashOut (msg : Msg) (block : Block) : M unit :=
  game ← gets (λ s, gameOf s msg.(sender)) ;
  require game.(Game.isActive) "No active game" ;;
  write_game msg.(sender) (game_set_isActive game false) ;;
  emit (GameEnded msg.(sender) block.(timestamp)).

(** *** Higher/Lower game on the plaintext ledger *)

Definition simpleStartGame (msg : Msg) (block : Block) (_wager : uint256) : M unit :=
  g ← gets (λ s, simpleGameOf s msg.(sender)) ;
  require (negb g.(SimpleGame.isActive)) "Game already in progress" ;;
  bal ← gets (λ s, simpleBalanceOf s msg.(sender)) ;
  require (_wager <=? bal) "Insufficient balance" ;;
  let currentCard := card_of_hash (simpleStartGame_packed msg block) in
  write_simpleGame msg.(sender)
    (SimpleGame.mk msg.(sender) _wager currentCard 0 true
       block.(timestamp) (secret_of msg block currentCard)) ;;
  bal ← gets (λ s, simpleBalanceOf s msg.(sender)) ;
  bal' ← checked_sub bal _wager ;
  write_simpleBalance msg.(sender) bal' ;;
  emit (GameStarted msg.(sender) currentCard block.(timestamp)).

Definition simpleMakeGuess (msg : Msg) (block : Block) (isHigher : bool)
    : M (bool * uint8) :=
  game ← gets (λ s, simpleGameOf s msg.(sender)) ;
  require game.(SimpleGame.isActive) "No active game" ;;
  let newCard :=
    card_of_hash (simpleMakeGuess_packed msg block game.(SimpleGame.gameSecret)) in
  let correct := guess_correct isHigher newCard game.(SimpleGame.currentCard) in
  (if correct then
     game ← gets (λ s, simpleGameOf s msg.(sender)) ;
     score' ← checked_add game.(SimpleGame.score) 1 ;
     write_simpleGame msg.(sender) (simpleGame_set_score game score') ;;
     game ← gets (λ s, simpleGameOf s msg.(sender)) ;
     write_simpleGame msg.(sender) (simpleGame_set_currentCard game newCard) ;;
     game ← gets (λ s, simpleGameOf s msg.(sender)) ;
     product ← checked_mul game.(SimpleGame.wager) 15 ;
     let winnings := product / 10 in
     bal ← gets (λ s, simpleBalanceOf s msg.(sender)) ;
     bal' ← checked_add bal winnings ;
     write_simpleBalance msg.(sender) bal' ;;
     game ← gets (λ s, simpleGameOf s msg.(sender)) ;
     emit (GameResult msg.(sender) newCard true game.(SimpleGame.score)
             block.(timestamp))
   else
     game ← gets (λ s, simpleGameOf s msg.(sender)) ;
     write_simpleGame msg.(sender) (simpleGame_set_isActive game false) ;;
     game ← gets (λ s, simpleGameOf s msg.(sender)) ;
     emit (GameResult msg.(sender) newCard false game.(SimpleGame.score)
             block.(timestamp))) ;;
  mret (correct, newCard).

Definition simpleCashOut (msg : Msg) (block : Block) : M unit :=
  game ← gets (λ s, simpleGameOf s msg.(sender)) ;
  require game.(SimpleGame.isActive) "No active game" ;;
  bal ← gets (λ s, simpleBalanceOf s msg.(sender)) ;
  bal' ← checked_add bal game.(SimpleGame.wager) ;
  write_simpleBalance msg.(sender) bal' ;;
  game ← gets (λ s, simpleGameOf s msg.(sender)) ;
  write_simpleGame msg.(sender) (simpleGame_set_isActive game false) ;;
  emit (GameEnded msg.(sender) block.(timestamp)).

(** *** View functions *)

Definition getEncryptedBalance (msg : Msg) : M handle :=
  gets (λ s, balanceOf s msg.(sender)).
Definition getEncryptedScore (msg : Msg) : M handle :=
  gets (λ s, scoreOf s msg.(sender)).
Definition getEncryptedFlag (msg : Msg) : M handle :=
  gets (λ s, flagOf s msg.(sender)).
Definition getSimpleBalance (msg : Msg) : M uint256 :=
  gets (λ s, simpleBalanceOf s msg.(sender)).
Definition hasBalanceDeposited (msg : Msg) : M bool :=
  gets (λ s, hasDepositOf s msg.(sender)).

Definition getUserStatus (msg : Msg) (block : Block) : M (bool * uint256 * bool) :=
  hasBalance ← gets (λ s, hasDepositOf s msg.(sender)) ;
  lastActivityTime ← gets (λ s, lastActivityOf s msg.(sender)) ;
  elapsed ← checked_sub block.(timestamp) lastActivityTime ;
  let isActive := elapsed <? 3600 in
  mret (hasBalance, lastActivityTime, isActive).

Definition getCurrentSimpleGame (msg : Msg)
    : M (uint8 * bool * uint256 * uint256 * uint256) :=
  game ← gets (λ s, simpleGameOf s msg.(sender)) ;
  mret (game.(SimpleGame.currentCard), game.(SimpleGame.isActive),
        game.(SimpleGame.timestamp), game.(SimpleGame.score),
        game.(SimpleGame.wager)).

Definition getEncryptedWager (msg : Msg) : M handle :=
  g ← gets (λ s, gameOf s msg.(sender)) ;
  mret g.(Game.wager).

(** *** Utility functions *)

Definition grantAllPermissions (msg : Msg) (block : Block) : M unit :=
  dep ← gets (λ s, hasDepositOf s msg.(sender)) ;
  (if dep : bool then
     h ← gets (λ s, balanceOf s msg.(sender)) ;
     FHE_allowThis h ;;
     h ← gets (λ s, balanceOf s msg.(sender)) ;
     FHE_allow h msg.(sender)
   else mret tt) ;;
  h ← gets (λ s, scoreOf s msg.(sender)) ;
  FHE_allowThis h ;;
  h ← gets (λ s, scoreOf s msg.(sender)) ;
  FHE_allow h msg.(sender) ;;
  h ← gets (λ s, flagOf s msg.(sender)) ;
  FHE_allowThis h ;;
  h ← gets (λ s, flagOf s msg.(sender)) ;
  FHE_allow h msg.(sender) ;;
  write_lastActivity msg.(sender) block.(timestamp) ;;
  emit (PermissionGranted msg.(sender) "all" block.(timestamp)).

Definition resetUserData (msg : Msg) (block : Block) : M unit :=
  write_balance msg.(sender) (asEuint32 0) ;;
  write_score msg.(sender) (asEuint32 0) ;;
  write_flag msg.(sender) (asEbool false) ;;
  h ← gets (λ s, balanceOf s msg.(sender)) ;
  FHE_allowThis h ;;
  h ← gets (λ s, balanceOf s msg.(sender)) ;
  FHE_allow h msg.(sender) ;;
  h ← gets (λ s, scoreOf s msg.(sender)) ;
  FHE_allowThis h ;;
  h ← gets (λ s, scoreOf s msg.(sender)) ;
  FHE_allow h msg.(sender) ;;
  h ← gets (λ s, flagOf s msg.(sender)) ;
  FHE_allowThis h ;;
  h ← gets (λ s, flagOf s msg.(sender)) ;
  FHE_allow h msg.(sender) ;;
  write_hasDeposit msg.(sender) false ;;
  write_lastActivity msg.(sender) block.(timestamp) ;;
  emit (EncryptedOperation msg.(sender) "reset" block.(timestamp)).

(** *** The contract as a transition system *)

(** The state-changing external functions with their arguments. *)
Inductive Call :=
| DepositEncrypted (_encryptedAmount : externalEuint32) (inputProof : bytes)
| SimpleDeposit
| FhevmDeposit
| PerformArithmetic (_encryptedA _encryptedB : externalEuint32) (proofA proofB : bytes)
| TransferEncrypted (to : address) (_encryptedAmount : externalEuint32)
    (inputProof : bytes)
| SetEncryptedFlag (flag : bool)
| IncrementScore
| StartGame (_encryptedWager : externalEuint32) (inputProof : bytes)
| MakeGuess (isHigher : bool)
| CashOut
| SimpleStartGame (_wager : uint256)
| SimpleMakeGuess (isHigher : bool)
| SimpleCashOut
| GrantAllPermissions
| ResetUserData.

Definition payable (c : Call) : bool :=
  match c with
  | DepositEncrypted _ _ | SimpleDeposit | FhevmDeposit => true
  | _ => false
  end.

Definition discard {A} (m : M A) : M unit := m ;; mret tt.

Definition body (c : Call) (msg : Msg) (block : Block) : M unit :=
  match c with
  | DepositEncrypted a p => depositEncrypted msg block a p
  | SimpleDeposit => simpleDeposit msg block
  | FhevmDeposit => fhevmDeposit msg block
  | PerformArithmetic a b pa pb => performArithmetic msg block a b pa pb
  | TransferEncrypted to a p => transferEncrypted msg block to a p
  | SetEncryptedFlag flag => setEncryptedFlag msg block flag
  | IncrementScore => incrementScore msg block
  | StartGame w p => startGame msg block w p
  | MakeGuess isHigher => discard (makeGuess msg block isHigher)
  | CashOut => cashOut msg block
  | SimpleStartGame w => simpleStartGame msg block w
  | SimpleMakeGuess isHigher => discard (simpleMakeGuess msg block isHigher)
  | SimpleCashOut => simpleCashOut msg block
  | GrantAllPermissions => grantAllPermissions msg block
  | ResetUserData => resetUserData msg block
  end.

(** One transaction: a function that is not [payable] rejects a call that
    carries value before its body runs; a revert leaves no new state. *)
Definition exec (c : Call) (msg : Msg) (block : Block) (s : State) : Result State :=
  if negb (payable c) && negb (msg.(value) =? 0) then Err NonPayable
  else match body c msg block s with
       | Ok (_, s') => Ok s'
       | Err e => Err e
       end.

(** Storage after deployment: every mapping empty, nothing granted. *)
Definition init : State := mkState _ ∅ ∅ ∅ ∅ ∅ ∅ ∅ ∅ ∅ [].

(** States the contract can be in: after any sequence of successful calls. *)
Inductive reachable : State → Prop :=
| reachable_init : reachable init
| reachable_step c msg block s s' :
    reachable s → exec c msg block s = Ok s' → reachable s'.


(** ** Symbolic execution of a call *)

(** Section variables a goal does not mention stay out of its proof. *)
Ltac drop_unused := try clear keccak256; try clear this.

Ltac unfold_calls :=
  drop_unused;
  unfold depositEncrypted, simpleDeposit, fhevmDeposit, performArithmetic,
    transferEncrypted, setEncryptedFlag, incrementScore, startGame, makeGuess,
    cashOut, simpleStartGame, simpleMakeGuess, simpleCashOut,
    grantAllPermissions, resetUserData,
    getEncryptedBalance, getEncryptedScore, getEncryptedFlag, getSimpleBalance,
    hasBalanceDeposited, getUserStatus, getCurrentSimpleGame, getEncryptedWager in *.

Ltac unfold_M :=
  unfold discard, emit, FHE_allowThis, FHE_allow, FHE_fromExternal,
    write_balance, write_score, write_flag, write_hasDeposit, write_lastActivity,
    write_simpleBalance, write_game, write_simpleGame,
    checked_add, checked_sub, checked_mul, require, revert, gets, modify in *;
  unfold mbind, M_bind, mret, M_ret in *.

Ltac unfold_readers :=
  unfold granted, isAllowed, balanceOf, scoreOf, flagOf, hasDepositOf,
    lastActivityOf, simpleBalanceOf, gameOf, simpleGameOf, rd in *.

(** Projections of written storage; the setters are unfolded only under a
    projection, so the state term is never copied. *)
Ltac st_simpl :=
  cbn [set_encryptedBalances set_encryptedScores set_encryptedFlags
       set_hasDeposit set_lastActivity set_simpleBalances set_games
       set_simpleGames set_acl set_events
       encryptedBalances encryptedScores encryptedFlags hasDeposit lastActivity
       simpleBalances games simpleGames acl events
       game_set_score game_set_currentCard game_set_isActive
       simpleGame_set_score simpleGame_set_currentCard simpleGame_set_isActive
       Game.player Game.wager Game.currentCard Game.score Game.isActive
       Game.timestamp Game.gameSecret
       SimpleGame.player SimpleGame.wager SimpleGame.currentCard SimpleGame.score
       SimpleGame.isActive SimpleGame.timestamp SimpleGame.gameSecret
       fst snd] in *.

Ltac map_simpl :=
  repeat (first [ rewrite lookup_insert_eq in *
                | rewrite lookup_insert_ne in * by congruence ];
          cbn [default from_option id] in * ).

Ltac normalize := unfold_readers; st_simpl; map_simpl; st_simpl.

(** Case analysis on every test a call makes, in program order. *)
Ltac split_run H :=
  repeat (cbn [negb] in H;
    lazymatch type of H with
    | Err _ = Ok _ => discriminate H
    | Ok _ = Ok _ => fail
    | context [match ?x with Some _ => _ | None => _ end] =>
        let E := fresh "E" in destruct x eqn:E
    | context [if ?x then _ else _] =>
        let E := fresh "E" in destruct x eqn:E
    end).

(** ** Arithmetic modulo 2^32 *)

Lemma MOD32_pos : 0 < MOD32.
Proof. unfold MOD32. lia. Qed.

Lemma mod32_shift x y c :
  (x + c) mod MOD32 = (y + c) mod MOD32 ↔ x mod MOD32 = y mod MOD32.
Proof.
  split; intros E.
  - replace x with ((x + c) + - c) by lia. replace y with ((y + c) + - c) by lia.
    rewrite (Z.add_mod (x + c)), (Z.add_mod (y + c)) by (pose proof MOD32_pos; lia).
    now rewrite E.
  - rewrite (Z.add_mod x), (Z.add_mod y) by (pose proof MOD32_pos; lia). now rewrite E.
Qed.

(** The plaintext of [sum + (difference + product)]. *)
Lemma plain32_combination (a b : handle) :
  plain32 (add (add a b) (add (sub a b) (mul a b)))
  = (2 * plain32 a + plain32 a * plain32 b) mod MOD32.
Proof.
  rewrite !plain32_add, plain32_sub, plain32_mul.
  set (pa := plain32 a). set (pb := plain32 b).
  rewrite Zplus_mod_idemp_l, Zplus_mod_idemp_r.
  rewrite Z.add_assoc, Zplus_mod_idemp_r.
  replace (pa + pb + (pa - pb) `mod` MOD32 + pa * pb)
    with ((pa + pb + pa * pb) + (pa - pb) `mod` MOD32) by lia.
  rewrite Zplus_mod_idemp_r. f_equal. lia.
Qed.

Lemma performArithmetic_run msg block A B pA pB a b s :
  fromExternal A pA = Some a → fromExternal B pB = Some b →
  ∃ s', performArithmetic msg block A B pA pB s = Ok (tt, s')
    ∧ scoreOf s' msg.(sender) = add (add a b) (add (sub a b) (mul a b))
    ∧ granted s' (scoreOf s' msg.(sender)) msg.(sender).
Proof.
  intros Ha Hb. unfold_calls. unfold_M. rewrite Ha, Hb. cbn [negb].
  eexists. split; [reflexivity|]. normalize.
  split; [reflexivity|]. split; set_solver.
Qed.

(** C1 (as amended).  With both proofs accepted, [performArithmetic] stores
    in the caller's score a handle whose plaintext is
    (a+b) + (a-b) + (a*b) modulo 2^32, that is (2a + ab) mod 2^32, and grants
    it to the contract and the caller.  The combination depends on the order
    of the operands: with the operands swapped the score is (2b + ab) mod 2^32,
    and the two scores agree exactly when 2a and 2b are congruent modulo
    2^32. *)
Theorem performArithmetic_score msg block A B pA pB a b s :
  fromExternal A pA = Some a → fromExternal B pB = Some b →
  ∃ s1 s2,
    performArithmetic msg block A B pA pB s = Ok (tt, s1)
    ∧ performArithmetic msg block B A pB pA s = Ok (tt, s2)
    ∧ plain32 (scoreOf s1 msg.(sender))
      = ((plain32 a + plain32 b) + (plain32 a - plain32 b) + plain32 a * plain32 b)
          mod MOD32
    ∧ plain32 (scoreOf s2 msg.(sender))
      = ((plain32 b + plain32 a) + (plain32 b - plain32 a) + plain32 b * plain32 a)
          mod MOD32
    ∧ granted s1 (scoreOf s1 msg.(sender)) msg.(sender)
    ∧ (plain32 (scoreOf s1 msg.(sender)) = plain32 (scoreOf s2 msg.(sender))
       ↔ (2 * plain32 a) mod MOD32 = (2 * plain32 b) mod MOD32).
Proof.
  intros Ha Hb.
  destruct (performArithmetic_run msg block A B pA pB a b s Ha Hb)
    as (s1 & R1 & S1 & G1).
  destruct (performArithmetic_run msg block B A pB pA b a s Hb Ha)
    as (s2 & R2 & S2 & G2).
  exists s1, s2. rewrite S1, S2 in *. rewrite !plain32_combination.
  split; [assumption|]. split; [assumption|].
  split; [f_equal; lia|]. split; [f_equal; lia|]. split; [assumption|].
  rewrite (Z.mul_comm (plain32 b) (plain32 a)). apply mod32_shift.
Qed.

(** ** Reset *)

(** C2 (as amended).  [resetUserData] never reverts, and after it the
    caller's queries on the encrypted ledger return handles that decrypt to
    zero (balance, score) and to false (flag), each granted to the contract
    and the caller, and [hasDeposit] reads false.  The reset does not touch
    the plaintext ledger or the games: [getSimpleBalance],
    [getCurrentSimpleGame] and [getEncryptedWager] return what they returned
    before the reset. *)
Theorem resetUserData_then_query msg block s :
  ∃ s', resetUserData msg block s = Ok (tt, s')
    ∧ (∃ h, getEncryptedBalance msg s' = Ok (h, s')
            ∧ plain32 h = 0 ∧ granted s' h msg.(sender))
    ∧ (∃ h, getEncryptedScore msg s' = Ok (h, s')
            ∧ plain32 h = 0 ∧ granted s' h msg.(sender))
    ∧ (∃ h, getEncryptedFlag msg s' = Ok (h, s')
            ∧ plainb h = false ∧ granted s' h msg.(sender))
    ∧ hasBalanceDeposited msg s' = Ok (false, s')
    ∧ (∀ later, block.(timestamp) ≤ later.(timestamp) →
         getUserStatus msg later s'
         = Ok ((false, block.(timestamp),
                later.(timestamp) - block.(timestamp) <? 3600), s'))
    ∧ getSimpleBalance msg s' = Ok (simpleBalanceOf s msg.(sender), s')
    ∧ (∃ r, getCurrentSimpleGame msg s = Ok (r, s)
            ∧ getCurrentSimpleGame msg s' = Ok (r, s'))
    ∧ (∃ h, getEncryptedWager msg s = Ok (h, s)
            ∧ getEncryptedWager msg s' = Ok (h, s')).
Proof.
  eexists. split; [reflexivity|].
  unfold_calls. unfold_M. cbn [negb]. normalize.
  split; [eexists; split; [reflexivity|]; split;
            [rewrite plain32_asEuint32; reflexivity | split; set_solver]|].
  split; [eexists; split; [reflexivity|]; split;
            [rewrite plain32_asEuint32; reflexivity | split; set_solver]|].
  split; [eexists; split; [reflexivity|]; split;
            [apply plainb_asEbool | split; set_solver]|].
  split; [reflexivity|].
  split.
  { intros later Hle. apply Z.leb_le in Hle. rewrite Hle. reflexivity. }
  split; [reflexivity|].
  split; eexists; split; reflexivity.
Qed.

(** ** Debits on the encrypted ledger *)

Lemma transferEncrypted_run msg block to A p amount s :
  to ≠ msg.(sender) → hasDepositOf s msg.(sender) = true →
  fromExternal A p = Some amount →
  ∃ s', transferEncrypted msg block to A p s = Ok (tt, s')
    ∧ balanceOf s' msg.(sender) = sub (balanceOf s msg.(sender)) amount
    ∧ balanceOf s' to = add (balanceOf s to) amount.
Proof.
  intros Hto Hdep HA. unfold_calls. unfold_M.
  rewrite bool_decide_eq_false_2 by assumption. cbn [negb].
  rewrite Hdep. cbn [negb]. rewrite HA. cbn [negb].
  eexists. split; [reflexivity|]. normalize.
  split; reflexivity.
Qed.

Lemma startGame_run msg block W p wager s :
  (gameOf s msg.(sender)).(Game.isActive) = false →
  hasDepositOf s msg.(sender) = true →
  fromExternal W p = Some wager →
  ∃ s', startGame msg block W p s = Ok (tt, s')
    ∧ balanceOf s' msg.(sender) = sub (balanceOf s msg.(sender)) wager
    ∧ gameOf s' msg.(sender)
      = Game.mk _ msg.(sender) wager (card_of_hash (startGame_packed msg block))
          (asEuint32 0) true block.(timestamp)
          (secret_of msg block (card_of_hash (startGame_packed msg block))).
Proof.
  intros Hact Hdep HW. unfold_calls. unfold_M.
  rewrite Hact. cbn [negb]. rewrite Hdep. cbn [negb].
  rewrite HW. cbn [negb].
  eexists. split; [reflexivity|]. normalize. split; reflexivity.
Qed.

Lemma transferEncrypted_errors msg block to A p s e :
  transferEncrypted msg block to A p s = Err e →
  e = SelfTransferNotAllowed ∨ e = NoDepositOnRecord ∨ e = ProofVerificationFailed.
Proof.
  unfold_calls. unfold_M. intros H.
  destruct (negb (bool_decide (to = sender msg))); cbn [negb] in H;
    [|injection H as <-; auto].
  destruct (hasDepositOf s (sender msg)); cbn [negb] in H;
    [|injection H as <-; auto].
  destruct (fromExternal A p); cbn [negb] in H;
    [discriminate|injection H as <-; auto].
Qed.

Lemma startGame_errors msg block W p s e :
  startGame msg block W p s = Err e →
  e = GameAlreadyActive ∨ e = NoDepositOnRecord ∨ e = ProofVerificationFailed.
Proof.
  unfold_calls. unfold_M. intros H.
  destruct (negb (Game.isActive (gameOf s (sender msg)))); cbn [negb] in H;
    [|injection H as <-; auto].
  destruct (hasDepositOf s (sender msg)); cbn [negb] in H;
    [|injection H as <-; auto].
  destruct (fromExternal W p); cbn [negb] in H;
    [discriminate|injection H as <-; auto].
Qed.

(** C3.  A debit on the encrypted ledger never reverts with
    [InsufficientBalance], whatever the balance and the amount: the only
    reverts of [transferEncrypted] and [startGame] are their guards.  When the
    guards pass the call succeeds and the caller's new balance decrypts to
    (balance - amount) mod 2^32; in particular, when the amount exceeds the
    balance the result is balance - amount + 2^32 and no error is reported. *)
Theorem confidential_debit_wraps msg block s :
  (∀ to A p, transferEncrypted msg block to A p s ≠ Err InsufficientBalance)
  ∧ (∀ W p, startGame msg block W p s ≠ Err InsufficientBalance)
  ∧ (∀ to A p amount,
       to ≠ msg.(sender) → hasDepositOf s msg.(sender) = true →
       fromExternal A p = Some amount →
       ∃ s', transferEncrypted msg block to A p s = Ok (tt, s')
         ∧ plain32 (balanceOf s' msg.(sender))
           = (plain32 (balanceOf s msg.(sender)) - plain32 amount) mod MOD32
         ∧ (plain32 (balanceOf s msg.(sender)) < plain32 amount →
            plain32 (balanceOf s' msg.(sender))
            = plain32 (balanceOf s msg.(sender)) - plain32 amount + MOD32))
  ∧ (∀ W p wager,
       (gameOf s msg.(sender)).(Game.isActive) = false →
       hasDepositOf s msg.(sender) = true →
       fromExternal W p = Some wager →
       ∃ s', startGame msg block W p s = Ok (tt, s')
         ∧ plain32 (balanceOf s' msg.(sender))
           = (plain32 (balanceOf s msg.(sender)) - plain32 wager) mod MOD32
         ∧ (plain32 (balanceOf s msg.(sender)) < plain32 wager →
            plain32 (balanceOf s' msg.(sender))
            = plain32 (balanceOf s msg.(sender)) - plain32 wager + MOD32)).
Proof.
  assert (wrap : ∀ x y : handle, plain32 x < plain32 y →
            (plain32 x - plain32 y) mod MOD32 = plain32 x - plain32 y + MOD32).
  { intros x y Hlt. pose proof (plain32_range x). pose proof (plain32_range y).
    symmetry. apply (Z.mod_unique _ _ (-1)); lia. }
  split; [|split; [|split]].
  - intros to A p H. apply transferEncrypted_errors in H.
    destruct H as [H|[H|H]]; discriminate H.
  - intros W p H. apply startGame_errors in H.
    destruct H as [H|[H|H]]; discriminate H.
  - intros to A p amount Hto Hdep HA.
    destruct (transferEncrypted_run msg block to A p amount s Hto Hdep HA)
      as (s' & R & B & _).
    exists s'. rewrite B, plain32_sub. auto.
  - intros W p wager Hact Hdep HW.
    destruct (startGame_run msg block W p wager s Hact Hdep HW)
      as (s' & R & B & _).
    exists s'. rewrite B, plain32_sub. auto.
Qed.

(** ** Guesses *)

Lemma guess_correct_tie isHigher card : guess_correct isHigher card card = false.
Proof. unfold guess_correct. destruct isHigher; apply Z.ltb_irrefl. Qed.

(** C4.  On both ledgers, when the card drawn by a guess equals the current
    card of the caller's active game, the guess returns [correct = false],
    for "higher" and for "lower" alike, and the game is no longer active. *)
Theorem tie_is_incorrect msg block isHigher s :
  ((gameOf s msg.(sender)).(Game.isActive) = true →
   card_of_hash (makeGuess_packed msg block (gameOf s msg.(sender)).(Game.gameSecret))
     = (gameOf s msg.(sender)).(Game.currentCard) →
   ∃ s', makeGuess msg block isHigher s
         = Ok ((false, (gameOf s msg.(sender)).(Game.currentCard)), s')
     ∧ (gameOf s' msg.(sender)).(Game.isActive) = false)
  ∧ ((simpleGameOf s msg.(sender)).(SimpleGame.isActive) = true →
     card_of_hash (simpleMakeGuess_packed msg block
                     (simpleGameOf s msg.(sender)).(SimpleGame.gameSecret))
       = (simpleGameOf s msg.(sender)).(SimpleGame.currentCard) →
     ∃ s', simpleMakeGuess msg block isHigher s
           = Ok ((false, (simpleGameOf s msg.(sender)).(SimpleGame.currentCard)), s')
       ∧ (simpleGameOf s' msg.(sender)).(SimpleGame.isActive) = false
       ∧ simpleBalanceOf s' msg.(sender) = simpleBalanceOf s msg.(sender)).
Proof.
  split.
  - intros Hact Hcard. unfold_calls. unfold_M.
    rewrite Hact. cbn [negb]. rewrite Hcard, guess_correct_tie. cbn [negb].
    eexists. split; [reflexivity|]. normalize. reflexivity.
  - intros Hact Hcard. unfold_calls. unfold_M.
    rewrite Hact. cbn [negb]. rewrite Hcard, guess_correct_tie. cbn [negb].
    eexists. split; [reflexivity|]. normalize. split; reflexivity.
Qed.

(** C5 (as amended).  A guess on an active plaintext game: when it is correct
    and none of [score + 1], [wager * 15] and [balance + winnings] exceeds
    2^256 - 1, the score grows by exactly 1, the current card becomes the
    drawn card, [(wager * 15) / 10] is credited to the caller's simple balance
    and the game stays active; when it is correct and one of the three
    overflows, the call reverts with Panic(0x11) and changes nothing; when it
    is incorrect, the game is deactivated and nothing is credited. *)
Theorem simpleMakeGuess_settles msg block isHigher s :
  let game := simpleGameOf s msg.(sender) in
  let newCard :=
    card_of_hash (simpleMakeGuess_packed msg block game.(SimpleGame.gameSecret)) in
  let winnings := game.(SimpleGame.wager) * 15 / 10 in
  game.(SimpleGame.isActive) = true →
  (guess_correct isHigher newCard game.(SimpleGame.currentCard) = true →
   game.(SimpleGame.score) + 1 ≤ MAX_UINT256 →
   game.(SimpleGame.wager) * 15 ≤ MAX_UINT256 →
   simpleBalanceOf s msg.(sender) + winnings ≤ MAX_UINT256 →
   ∃ s', simpleMakeGuess msg block isHigher s = Ok ((true, newCard), s')
     ∧ simpleGameOf s' msg.(sender)
       = SimpleGame.mk game.(SimpleGame.player) game.(SimpleGame.wager) newCard
           (game.(SimpleGame.score) + 1) true game.(SimpleGame.timestamp)
           game.(SimpleGame.gameSecret)
     ∧ simpleBalanceOf s' msg.(sender) = simpleBalanceOf s msg.(sender) + winnings)
  ∧ (guess_correct isHigher newCard game.(SimpleGame.currentCard) = true →
     ¬ (game.(SimpleGame.score) + 1 ≤ MAX_UINT256
        ∧ game.(SimpleGame.wager) * 15 ≤ MAX_UINT256
        ∧ simpleBalanceOf s msg.(sender) + winnings ≤ MAX_UINT256) →
     simpleMakeGuess msg block isHigher s = Err Overflow)
  ∧ (guess_correct isHigher newCard game.(SimpleGame.currentCard) = false →
     ∃ s', simpleMakeGuess msg block isHigher s = Ok ((false, newCard), s')
       ∧ simpleGameOf s' msg.(sender) = simpleGame_set_isActive game false
       ∧ simpleBalanceOf s' msg.(sender) = simpleBalanceOf s msg.(sender)).
Proof.
  intros game newCard winnings Hact. subst game newCard winnings.
  split; [|split].
  - intros Hc Hs Hw Hb. unfold_calls. unfold_M.
    rewrite Hact. cbn [negb]. rewrite Hc. cbn [negb].
    apply Z.leb_le in Hs. rewrite Hs. cbn [negb]. normalize.
    apply Z.leb_le in Hw. rewrite Hw. cbn [negb]. normalize.
    apply Z.leb_le in Hb. rewrite Hb. cbn [negb]. normalize.
    eexists. split; [reflexivity|]. normalize. split; [|reflexivity].
    unfold simpleGame_set_currentCard, simpleGame_set_score. st_simpl.
    rewrite Hact. reflexivity.
  - intros Hc Hover. unfold_calls. unfold_M.
    rewrite Hact. cbn [negb]. rewrite Hc. cbn [negb].
    repeat (lazymatch goal with
            | |- context [if ?c then _ else _] => destruct c eqn:?
            end; cbn [negb]; normalize; try reflexivity).
    exfalso. apply Hover. rewrite <- !Z.leb_le. auto.
  - intros Hc. unfold_calls. unfold_M.
    rewrite Hact. cbn [negb]. rewrite Hc. cbn [negb].
    eexists. split; [reflexivity|]. normalize. split; reflexivity.
Qed.

(** ** Card draws *)

Lemma card_of_hash_range packed : 1 ≤ card_of_hash packed ≤ 13.
Proof.
  unfold card_of_hash, to_uint8.
  pose proof (Z.mod_pos_bound (to_uint256 (keccak256 packed)) 13 ltac:(lia)).
  rewrite Z.mod_small; lia.
Qed.

(** C8.  For a caller with no active plaintext game, [simpleStartGame]
    reverts with [InsufficientBalance] whenever the caller's simple balance is
    below the wager; otherwise it succeeds, the new balance is the old one
    minus the wager, and the caller's game record is active, holds the wager,
    a zero score and the card drawn for the caller, which is between 1 and
    13. *)
Theorem simpleStartGame_debits msg block _wager s :
  (simpleGameOf s msg.(sender)).(SimpleGame.isActive) = false →
  (simpleBalanceOf s msg.(sender) < _wager →
   simpleStartGame msg block _wager s = Err InsufficientBalance)
  ∧ (_wager ≤ simpleBalanceOf s msg.(sender) →
     ∃ s', simpleStartGame msg block _wager s = Ok (tt, s')
       ∧ simpleBalanceOf s' msg.(sender) = simpleBalanceOf s msg.(sender) - _wager
       ∧ simpleGameOf s' msg.(sender)
         = SimpleGame.mk msg.(sender) _wager
             (card_of_hash (simpleStartGame_packed msg block)) 0 true
             block.(timestamp)
             (secret_of msg block (card_of_hash (simpleStartGame_packed msg block)))
       ∧ 1 ≤ (simpleGameOf s' msg.(sender)).(SimpleGame.currentCard) ≤ 13).
Proof.
  intros Hact. split.
  - intros Hlt. unfold_calls. unfold_M. rewrite Hact. cbn [negb].
    apply Z.leb_gt in Hlt. rewrite Hlt. reflexivity.
  - intros Hle. unfold_calls. unfold_M. rewrite Hact. cbn [negb].
    apply Z.leb_le in Hle. rewrite Hle. cbn [negb]. normalize.
    rewrite Hle. cbn [negb].
    eexists. split; [reflexivity|]. normalize.
    split; [reflexivity|]. split; [reflexivity|]. apply card_of_hash_range.
Qed.

(** C9.  Every card a draw produces is between 1 and 13, whatever the hash
    of the entropy inputs: the card [startGame] and [simpleStartGame] store and
    the card [makeGuess] and [simpleMakeGuess] return, which is also the card
    they store after a correct guess. *)
Theorem drawn_card_in_range :
  (∀ packed, 1 ≤ card_of_hash packed ≤ 13)
  ∧ (∀ msg block W p s s',
       startGame msg block W p s = Ok (tt, s') →
       1 ≤ (gameOf s' msg.(sender)).(Game.currentCard) ≤ 13)
  ∧ (∀ msg block isHigher s correct newCard s',
       makeGuess msg block isHigher s = Ok ((correct, newCard), s') →
       1 ≤ newCard ≤ 13
       ∧ (correct = true → (gameOf s' msg.(sender)).(Game.currentCard) = newCard))
  ∧ (∀ msg block _wager s s',
       simpleStartGame msg block _wager s = Ok (tt, s') →
       1 ≤ (simpleGameOf s' msg.(sender)).(SimpleGame.currentCard) ≤ 13)
  ∧ (∀ msg block isHigher s correct newCard s',
       simpleMakeGuess msg block isHigher s = Ok ((correct, newCard), s') →
       1 ≤ newCard ≤ 13
       ∧ (correct = true →
          (simpleGameOf s' msg.(sender)).(SimpleGame.currentCard) = newCard)).
Proof.
  split; [apply card_of_hash_range|].
  split; [|split; [|split]].
  - intros msg block W p s s' H. unfold_calls. unfold_M. split_run H.
    injection H as <-. normalize. apply card_of_hash_range.
  - intros msg block isHigher s correct newCard s' H.
    unfold_calls. unfold_M. split_run H.
    + injection H as <- <- <-. normalize.
      split; [apply card_of_hash_range|reflexivity].
    + injection H as <- <- <-. split; [apply card_of_hash_range|discriminate].
  - intros msg block _wager s s' H. unfold_calls. unfold_M. split_run H.
    injection H as <-. normalize. apply card_of_hash_range.
  - intros msg block isHigher s correct newCard s' H.
    unfold_calls. unfold_M. split_run H.
    + injection H as <- <- <-. normalize.
      split; [apply card_of_hash_range|reflexivity].
    + injection H as <- <- <-. split; [apply card_of_hash_range|discriminate].
Qed.

(** ** Re-asserting grants *)


(** ** Properties of every transaction *)

Lemma exec_inv c msg block s s' :
  exec c msg block s = Ok s' → body c msg block s = Ok (tt, s').
Proof.
  unfold exec. destruct (negb (payable c) && negb (value msg =? 0)); [discriminate|].
  destruct (body c msg block s) as [[[] s1]|e]; [|discriminate].
  now intros [= ->].
Qed.

(** One case per outcome of the tests of a call, the final state explicit. *)
Ltac run_call H :=
  apply exec_inv in H;
  match type of H with body ?c _ _ _ = _ => destruct c end;
  cbn [body] in H; unfold_calls; unfold_M; split_run H;
  (injection H as <-); normalize.

(** Case analysis on whether a key read is a key written. *)
Ltac case_keys :=
  repeat match goal with
         | |- context [<[?k := _]> _ !! ?p] =>
             destruct (decide (k = p)); [subst|]; map_simpl
         end.

(** The fields of a game fixed when the game starts. *)
Definition same_game (g g' : Game.t) : Prop :=
  g'.(Game.player) = g.(Game.player) ∧ g'.(Game.wager) = g.(Game.wager)
  ∧ g'.(Game.timestamp) = g.(Game.timestamp)
  ∧ g'.(Game.gameSecret) = g.(Game.gameSecret).

Definition same_simpleGame (g g' : SimpleGame.t) : Prop :=
  g'.(SimpleGame.player) = g.(SimpleGame.player)
  ∧ g'.(SimpleGame.wager) = g.(SimpleGame.wager)
  ∧ g'.(SimpleGame.timestamp) = g.(SimpleGame.timestamp)
  ∧ g'.(SimpleGame.gameSecret) = g.(SimpleGame.gameSecret).

Lemma exec_games c msg block s s' p :
  exec c msg block s = Ok s' →
  ((gameOf s p).(Game.isActive) = true → (gameOf s' p).(Game.isActive) = true →
   same_game (gameOf s p) (gameOf s' p))
  ∧ ((gameOf s p).(Game.isActive) = false → (gameOf s' p).(Game.isActive) = true →
     msg.(sender) = p ∧ ∃ W proof, c = StartGame W proof)
  ∧ ((simpleGameOf s p).(SimpleGame.isActive) = true →
     (simpleGameOf s' p).(SimpleGame.isActive) = true →
     same_simpleGame (simpleGameOf s p) (simpleGameOf s' p))
  ∧ ((simpleGameOf s p).(SimpleGame.isActive) = false →
     (simpleGameOf s' p).(SimpleGame.isActive) = true →
     msg.(sender) = p ∧ ∃ w, c = SimpleStartGame w).
Proof.
  intros H. unfold same_game, same_simpleGame. run_call H.
  all: case_keys; st_simpl.
  all: repeat split; intros; try congruence; eauto.
  all: try (destruct (Game.isActive _); simpl in *; congruence).
  all: try (destruct (SimpleGame.isActive _); simpl in *; congruence).
Qed.

(** C6.  A principal has at most one active game per ledger: the games are
    keyed by principal, [startGame] and [simpleStartGame] revert with
    [GameAlreadyActive] when the caller's game of that ledger is active, and
    across any successful transaction a game that is active before and after
    is the same game (same player, wager, start time and secret), while a game
    that becomes active was started by its own principal in that
    transaction. *)
Theorem one_active_game_per_principal :
  (∀ msg block W proof s,
     (gameOf s msg.(sender)).(Game.isActive) = true →
     startGame msg block W proof s = Err GameAlreadyActive)
  ∧ (∀ msg block _wager s,
       (simpleGameOf s msg.(sender)).(SimpleGame.isActive) = true →
       simpleStartGame msg block _wager s = Err GameAlreadyActive)
  ∧ (∀ c msg block s s' p,
       exec c msg block s = Ok s' →
       ((gameOf s p).(Game.isActive) = true →
        (gameOf s' p).(Game.isActive) = true →
        same_game (gameOf s p) (gameOf s' p))
       ∧ ((gameOf s p).(Game.isActive) = false →
          (gameOf s' p).(Game.isActive) = true →
          msg.(sender) = p ∧ ∃ W proof, c = StartGame W proof)
       ∧ ((simpleGameOf s p).(SimpleGame.isActive) = true →
          (simpleGameOf s' p).(SimpleGame.isActive) = true →
          same_simpleGame (simpleGameOf s p) (simpleGameOf s' p))
       ∧ ((simpleGameOf s p).(SimpleGame.isActive) = false →
          (simpleGameOf s' p).(SimpleGame.isActive) = true →
          msg.(sender) = p ∧ ∃ w, c = SimpleStartGame w)).
Proof.
  split; [|split].
  - intros msg block W proof s Hact. unfold_calls. unfold_M.
    rewrite Hact. reflexivity.
  - intros msg block _wager s Hact. unfold_calls. unfold_M.
    rewrite Hact. reflexivity.
  - intros c msg block s s' p H. exact (exec_games c msg block s s' p H).
Qed.

(** ** Grants on current handles *)

(** What a transaction does to the handles in the five encrypted slots of a
    principal: a slot whose handle changed holds a handle granted to the
    contract and to the principal. *)
Definition regranted (s s' : State) (p : address) : Prop :=
  (balanceOf s' p ≠ balanceOf s p → granted s' (balanceOf s' p) p)
  ∧ (scoreOf s' p ≠ scoreOf s p → granted s' (scoreOf s' p) p)
  ∧ (flagOf s' p ≠ flagOf s p → granted s' (flagOf s' p) p)
  ∧ ((gameOf s' p).(Game.wager) ≠ (gameOf s p).(Game.wager) →
     granted s' (gameOf s' p).(Game.wager) p)
  ∧ ((gameOf s' p).(Game.score) ≠ (gameOf s p).(Game.score) →
     granted s' (gameOf s' p).(Game.score) p).

(** Every slot ever written holds a handle with both grants. *)
Definition slots_granted (s : State) (p : address) : Prop :=
  (balanceOf s p = null ∨ granted s (balanceOf s p) p)
  ∧ (scoreOf s p = null ∨ granted s (scoreOf s p) p)
  ∧ (flagOf s p = null ∨ granted s (flagOf s p) p)
  ∧ ((gameOf s p).(Game.wager) = null ∨ granted s (gameOf s p).(Game.wager) p)
  ∧ ((gameOf s p).(Game.score) = null ∨ granted s (gameOf s p).(Game.score) p).

Lemma exec_acl_mono c msg block s s' :
  exec c msg block s = Ok s' → s.(acl) ⊆ s'.(acl).
Proof. intros H. run_call H. all: set_solver. Qed.

Lemma exec_regranted c msg block s s' p :
  exec c msg block s = Ok s' → regranted s s' p.
Proof.
  intros H. unfold regranted. run_call H.
  all: case_keys; st_simpl.
  all: (split; [|split; [|split; [|split]]]);
         intros Hne; try (exfalso; apply Hne; reflexivity).
  all: split; set_solver.
Qed.

Lemma granted_mono (s s' : State) h p :
  s.(acl) ⊆ s'.(acl) → granted s h p → granted s' h p.
Proof. unfold granted, isAllowed. intros Hsub [Ht Hp]. split; apply Hsub; assumption. Qed.

Lemma slot_step (s s' : State) (h h' : handle) p :
  s.(acl) ⊆ s'.(acl) →
  (h' ≠ h → granted s' h' p) →
  h = null ∨ granted s h p →
  h' = null ∨ granted s' h' p.
Proof.
  intros Hsub Hnew Hold. destruct (decide (h' = h)) as [->|Hne].
  - destruct Hold; [left; assumption|right; eauto using granted_mono].
  - right. auto.
Qed.

Lemma reachable_slots_granted s p : reachable s → slots_granted s p.
Proof.
  induction 1 as [|c msg block s s' _ IH Hexec].
  - unfold slots_granted, init. normalize. rewrite !lookup_empty.
    cbn [default from_option id Game.zero Game.wager Game.score]. auto 10.
  - pose proof (exec_acl_mono _ _ _ _ _ Hexec) as Hsub.
    destruct (exec_regranted _ _ _ _ _ p Hexec) as (R1 & R2 & R3 & R4 & R5).
    destruct IH as (I1 & I2 & I3 & I4 & I5).
    unfold slots_granted. eauto 10 using slot_step.
Qed.

(** C7.  Every successful transaction leaves each encrypted slot it replaced
    (balance, score, flag, game wager, game score, of any principal) holding a
    handle granted both to the contract and to the owning principal; a
    transaction is atomic, so states are observable only between
    transactions, and in every reachable state each such slot either was never
    written or holds a handle carrying both grants.  Grants are never
    removed. *)
Theorem replaced_handles_are_granted :
  (∀ c msg block s s' p,
     exec c msg block s = Ok s' → regranted s s' p ∧ s.(acl) ⊆ s'.(acl))
  ∧ (∀ s p, reachable s → slots_granted s p).
Proof.
  split.
  - intros c msg block s s' p H.
    split; [exact (exec_regranted c msg block s s' p H)
           |exact (exec_acl_mono c msg block s s' H)].
  - intros s p H. now apply reachable_slots_granted.
Qed.

(** ** Deposits *)

(** X1.  [simpleDeposit] rejects a call without value; otherwise it adds
    exactly [msg.value] to the caller's simple balance, records the deposit
    and the activity time, and reverts with Panic(0x11) rather than wrap
    when the sum does not fit in 256 bits. *)
Theorem simpleDeposit_credits msg block s :
  (msg.(value) ≤ 0 → simpleDeposit msg block s = Err ZeroValueDeposit)
  ∧ (0 < msg.(value) →
     MAX_UINT256 < simpleBalanceOf s msg.(sender) + msg.(value) →
     simpleDeposit msg block s = Err Overflow)
  ∧ (0 < msg.(value) →
     simpleBalanceOf s msg.(sender) + msg.(value) ≤ MAX_UINT256 →
     ∃ s', simpleDeposit msg block s = Ok (tt, s')
       ∧ simpleBalanceOf s' msg.(sender)
         = simpleBalanceOf s msg.(sender) + msg.(value)
       ∧ hasDepositOf s' msg.(sender) = true
       ∧ lastActivityOf s' msg.(sender) = block.(timestamp)
       ∧ balanceOf s' msg.(sender) = balanceOf s msg.(sender)).
Proof.
  split; [|split].
  - intros Hv. unfold_calls. unfold_M.
    apply Z.ltb_ge in Hv. rewrite Hv. reflexivity.
  - intros Hv Hover. unfold_calls. unfold_M.
    apply Z.ltb_lt in Hv. rewrite Hv. cbn [negb].
    apply Z.leb_gt in Hover. rewrite Hover. reflexivity.
  - intros Hv Hfit. unfold_calls. unfold_M.
    apply Z.ltb_lt in Hv. rewrite Hv. cbn [negb].
    apply Z.leb_le in Hfit. rewrite Hfit. cbn [negb].
    eexists. split; [reflexivity|]. normalize. auto.
Qed.

(** X2.  [depositEncrypted] rejects a call without value and a proof the
    verifier rejects.  Otherwise the caller's balance becomes the encrypted
    sum of the old balance and the validated amount (modulo 2^32), granted to
    the contract and the caller, and the deposit is recorded.  The amount
    credited is the validated input alone: the value attached only has to be
    positive, and two calls that differ only in a positive value leave the
    same storage. *)
Theorem depositEncrypted_credits msg block A p s :
  (msg.(value) ≤ 0 → depositEncrypted msg block A p s = Err ZeroValueDeposit)
  ∧ (0 < msg.(value) → fromExternal A p = None →
     depositEncrypted msg block A p s = Err ProofVerificationFailed)
  ∧ (∀ amount, 0 < msg.(value) → fromExternal A p = Some amount →
     ∃ s', depositEncrypted msg block A p s = Ok (tt, s')
       ∧ balanceOf s' msg.(sender) = add (balanceOf s msg.(sender)) amount
       ∧ plain32 (balanceOf s' msg.(sender))
         = (plain32 (balanceOf s msg.(sender)) + plain32 amount) mod MOD32
       ∧ granted s' (balanceOf s' msg.(sender)) msg.(sender)
       ∧ hasDepositOf s' msg.(sender) = true
       ∧ lastActivityOf s' msg.(sender) = block.(timestamp)
       ∧ simpleBalanceOf s' msg.(sender) = simpleBalanceOf s msg.(sender))
  ∧ (∀ v, 0 < msg.(value) → 0 < v →
     depositEncrypted (mkMsg msg.(sender) v) block A p s
     = depositEncrypted msg block A p s).
Proof.
  split; [|split; [|split]].
  - intros Hv. unfold_calls. unfold_M.
    apply Z.ltb_ge in Hv. rewrite Hv. reflexivity.
  - intros Hv HA. unfold_calls. unfold_M.
    apply Z.ltb_lt in Hv. rewrite Hv. cbn [negb]. rewrite HA. reflexivity.
  - intros amount Hv HA. unfold_calls. unfold_M.
    apply Z.ltb_lt in Hv. rewrite Hv. cbn [negb]. rewrite HA. cbn [negb].
    eexists. split; [reflexivity|]. normalize.
    split; [reflexivity|]. split; [apply plain32_add|].
    split; [split; set_solver|]. auto.
  - intros v Hv Hv'. unfold_calls. unfold_M. cbn [sender value].
    apply Z.ltb_lt in Hv, Hv'. rewrite Hv, Hv'. reflexivity.
Qed.

(** X3.  [fhevmDeposit] credits the value in units of 10^14 wei, rounded
    down and truncated to 32 bits: the new balance decrypts to
    (balance + (value / 10^14) mod 2^32) mod 2^32.  A positive value below
    10^14 wei therefore leaves the decrypted balance as it was while still
    recording a deposit.  The call does not update the activity time. *)
Theorem fhevmDeposit_scales msg block s :
  (msg.(value) ≤ 0 → fhevmDeposit msg block s = Err ZeroValueDeposit)
  ∧ (0 < msg.(value) →
     ∃ s', fhevmDeposit msg block s = Ok (tt, s')
       ∧ plain32 (balanceOf s' msg.(sender))
         = (plain32 (balanceOf s msg.(sender))
            + (msg.(value) / 10 ^ 14) mod MOD32) mod MOD32
       ∧ granted s' (balanceOf s' msg.(sender)) msg.(sender)
       ∧ hasDepositOf s' msg.(sender) = true
       ∧ lastActivityOf s' msg.(sender) = lastActivityOf s msg.(sender)
       ∧ (msg.(value) < 10 ^ 14 →
          plain32 (balanceOf s' msg.(sender))
          = plain32 (balanceOf s msg.(sender)))).
Proof.
  split.
  - intros Hv. unfold_calls. unfold_M.
    apply Z.ltb_ge in Hv. rewrite Hv. reflexivity.
  - intros Hv. unfold_calls. unfold_M.
    pose proof Hv as Hpos. apply Z.ltb_lt in Hv. rewrite Hv. cbn [negb].
    eexists. split; [reflexivity|]. normalize.
    assert (E : plain32 (add (default null (encryptedBalances s !! sender msg))
                   (asEuint32 (to_uint32 (value msg / 10 ^ 14))))
                = (plain32 (default null (encryptedBalances s !! sender msg))
                   + (value msg / 10 ^ 14) mod MOD32) mod MOD32).
    { rewrite plain32_add, plain32_asEuint32. unfold to_uint32.
      rewrite Z.mod_mod by (pose proof MOD32_pos; lia). reflexivity. }
    split; [exact E|]. split; [split; set_solver|].
    split; [reflexivity|]. split; [reflexivity|].
    intros Hsmall. rewrite E.
    rewrite (Z.div_small (value msg)) by lia.
    rewrite Z.mod_0_l by (pose proof MOD32_pos; lia). rewrite Z.add_0_r.
    apply Z.mod_small, plain32_range.
Qed.

(** ** Score and flag *)

(** X4.  [incrementScore] needs a recorded deposit and reverts without one;
    with one it replaces the caller's score by a handle that decrypts to
    (score + 1) mod 2^32, granted to the contract and the caller, and leaves
    the balance alone. *)
Theorem incrementScore_adds_one msg block s :
  (hasDepositOf s msg.(sender) = false →
   incrementScore msg block s = Err MustHaveDeposit)
  ∧ (hasDepositOf s msg.(sender) = true →
     ∃ s', incrementScore msg block s = Ok (tt, s')
       ∧ plain32 (scoreOf s' msg.(sender))
         = (plain32 (scoreOf s msg.(sender)) + 1) mod MOD32
       ∧ granted s' (scoreOf s' msg.(sender)) msg.(sender)
       ∧ balanceOf s' msg.(sender) = balanceOf s msg.(sender)
       ∧ lastActivityOf s' msg.(sender) = block.(timestamp)).
Proof.
  split.
  - intros Hdep. unfold_calls. unfold_M. rewrite Hdep. reflexivity.
  - intros Hdep. unfold_calls. unfold_M. rewrite Hdep. cbn [negb].
    eexists. split; [reflexivity|]. normalize.
    split.
    { rewrite plain32_add, plain32_asEuint32.
      rewrite Zplus_mod_idemp_r. reflexivity. }
    split; [split; set_solver|]. auto.
Qed.

(** X5.  [setEncryptedFlag] never reverts and needs no deposit; afterwards
    [getEncryptedFlag] returns a handle that decrypts to the flag that was
    set and is granted to the contract and the caller.  Balance, score and
    the deposit record are untouched. *)
Theorem setEncryptedFlag_then_get msg block flag s :
  ∃ s' h, setEncryptedFlag msg block flag s = Ok (tt, s')
    ∧ getEncryptedFlag msg s' = Ok (h, s')
    ∧ plainb h = flag
    ∧ granted s' h msg.(sender)
    ∧ balanceOf s' msg.(sender) = balanceOf s msg.(sender)
    ∧ scoreOf s' msg.(sender) = scoreOf s msg.(sender)
    ∧ hasDepositOf s' msg.(sender) = hasDepositOf s msg.(sender)
    ∧ lastActivityOf s' msg.(sender) = block.(timestamp).
Proof.
  unfold_calls. unfold_M. cbn [negb].
  eexists. eexists. split; [reflexivity|]. normalize.
  split; [reflexivity|]. split; [apply plainb_asEbool|].
  split; [split; set_solver|]. auto.
Qed.

(** ** Transfers *)

(** X6.  A transfer to oneself always reverts with "Cannot transfer to
    self", whatever the amount, the proof, the deposit record and the
    storage. *)
Theorem transferEncrypted_to_self msg block A p s :
  transferEncrypted msg block msg.(sender) A p s = Err SelfTransferNotAllowed.
Proof.
  unfold_calls. unfold_M.
  rewrite bool_decide_eq_true_2 by reflexivity. reflexivity.
Qed.

(** X7.  A transfer that passes its guards moves the amount: the sender's
    balance decrypts to (balance - amount) mod 2^32 and the recipient's to
    (balance + amount) mod 2^32, so the sum of the two is unchanged modulo
    2^32.  Both new handles are granted to the contract and to their owner,
    the recipient is recorded as a depositor, and both activity times are
    set.  Without a recorded deposit the sender's call reverts. *)
Theorem transferEncrypted_moves msg block to A p s :
  to ≠ msg.(sender) →
  (hasDepositOf s msg.(sender) = false →
   transferEncrypted msg block to A p s = Err NoDepositOnRecord)
  ∧ (hasDepositOf s msg.(sender) = true → fromExternal A p = None →
     transferEncrypted msg block to A p s = Err ProofVerificationFailed)
  ∧ (∀ amount,
       hasDepositOf s msg.(sender) = true → fromExternal A p = Some amount →
       ∃ s', transferEncrypted msg block to A p s = Ok (tt, s')
         ∧ plain32 (balanceOf s' msg.(sender))
           = (plain32 (balanceOf s msg.(sender)) - plain32 amount) mod MOD32
         ∧ plain32 (balanceOf s' to)
           = (plain32 (balanceOf s to) + plain32 amount) mod MOD32
         ∧ (plain32 (balanceOf s' msg.(sender)) + plain32 (balanceOf s' to))
             mod MOD32
           = (plain32 (balanceOf s msg.(sender)) + plain32 (balanceOf s to))
               mod MOD32
         ∧ granted s' (balanceOf s' msg.(sender)) msg.(sender)
         ∧ granted s' (balanceOf s' to) to
         ∧ hasDepositOf s' to = true
         ∧ lastActivityOf s' msg.(sender) = block.(timestamp)
         ∧ lastActivityOf s' to = block.(timestamp)).
Proof.
  intros Hto. split; [|split].
  - intros Hdep. unfold_calls. unfold_M.
    rewrite bool_decide_eq_false_2 by assumption. cbn [negb].
    rewrite Hdep. reflexivity.
  - intros Hdep HA. unfold_calls. unfold_M.
    rewrite bool_decide_eq_false_2 by assumption. cbn [negb].
    rewrite Hdep. cbn [negb]. rewrite HA. reflexivity.
  - intros amount Hdep HA. unfold_calls. unfold_M.
    rewrite bool_decide_eq_false_2 by assumption. cbn [negb].
    rewrite Hdep. cbn [negb]. rewrite HA. cbn [negb].
    eexists. split; [reflexivity|]. normalize.
    split; [apply plain32_sub|]. split; [apply plain32_add|].
    split.
    { rewrite plain32_sub, plain32_add.
      rewrite <- Z.add_mod by (pose proof MOD32_pos; lia). f_equal. lia. }
    split; [split; set_solver|]. split; [split; set_solver|]. auto.
Qed.

(** ** Settling a game *)

(** Reads of written keys in the goal alone, also below a binder. *)
Ltac goal_simpl :=
  repeat (first [ rewrite lookup_insert_eq
                | rewrite lookup_insert_ne by congruence ];
          cbn [default from_option id]);
  st_simpl.

(** X8.  A guess on an active encrypted game never reverts.  When it is
    correct the game's score becomes a handle decrypting to (score + 1) mod
    2^32, the current card becomes the drawn card, twice the wager (modulo
    2^32) is added to the caller's balance, and the game stays active with
    its wager, start time and secret; when it is incorrect the game is
    deactivated and the balance handle is the one it was. *)
Theorem makeGuess_settles msg block isHigher s :
  let game := gameOf s msg.(sender) in
  let newCard := card_of_hash (makeGuess_packed msg block game.(Game.gameSecret)) in
  game.(Game.isActive) = true →
  (guess_correct isHigher newCard game.(Game.currentCard) = true →
   ∃ s', makeGuess msg block isHigher s = Ok ((true, newCard), s')
     ∧ gameOf s' msg.(sender)
       = Game.mk _ game.(Game.player) game.(Game.wager) newCard
           (add game.(Game.score) (asEuint32 1)) true game.(Game.timestamp)
           game.(Game.gameSecret)
     ∧ plain32 (gameOf s' msg.(sender)).(Game.score)
       = (plain32 game.(Game.score) + 1) mod MOD32
     ∧ plain32 (balanceOf s' msg.(sender))
       = (plain32 (balanceOf s msg.(sender)) + 2 * plain32 game.(Game.wager))
           mod MOD32)
  ∧ (guess_correct isHigher newCard game.(Game.currentCard) = false →
     ∃ s', makeGuess msg block isHigher s = Ok ((false, newCard), s')
       ∧ gameOf s' msg.(sender) = game_set_isActive game false
       ∧ balanceOf s' msg.(sender) = balanceOf s msg.(sender)).
Proof.
  intros game newCard Hact. subst game newCard. split.
  - intros Hc. unfold_calls. unfold_M.
    rewrite Hact. cbn [negb]. rewrite Hc. cbn [negb].
    eexists. split; [reflexivity|]. normalize.
    split.
    { unfold game_set_currentCard, game_set_score. st_simpl.
      rewrite Hact. reflexivity. }
    split.
    { rewrite plain32_add, plain32_asEuint32.
      rewrite Zplus_mod_idemp_r. reflexivity. }
    rewrite plain32_add, plain32_mul, plain32_asEuint32.
    rewrite Zmult_mod_idemp_r, Zplus_mod_idemp_r. f_equal. lia.
  - intros Hc. unfold_calls. unfold_M.
    rewrite Hact. cbn [negb]. rewrite Hc. cbn [negb].
    eexists. split; [reflexivity|]. normalize. split; reflexivity.
Qed.

(** X9.  Without an active game of the ledger in question, [makeGuess],
    [cashOut], [simpleMakeGuess] and [simpleCashOut] revert with "No active
    game"; in particular this is so for an account that never started a
    game. *)
Theorem no_active_game_reverts msg block isHigher s :
  ((gameOf s msg.(sender)).(Game.isActive) = false →
   makeGuess msg block isHigher s = Err NoActiveGame
   ∧ cashOut msg block s = Err NoActiveGame)
  ∧ ((simpleGameOf s msg.(sender)).(SimpleGame.isActive) = false →
     simpleMakeGuess msg block isHigher s = Err NoActiveGame
     ∧ simpleCashOut msg block s = Err NoActiveGame)
  ∧ (s.(games) !! msg.(sender) = None →
     makeGuess msg block isHigher s = Err NoActiveGame)
  ∧ (s.(simpleGames) !! msg.(sender) = None →
     simpleMakeGuess msg block isHigher s = Err NoActiveGame).
Proof.
  split; [|split; [|split]].
  - intros Hact. split; unfold_calls; unfold_M; rewrite Hact; reflexivity.
  - intros Hact. split; unfold_calls; unfold_M; rewrite Hact; reflexivity.
  - intros Hnone. unfold_calls. unfold_M. unfold gameOf, rd.
    rewrite Hnone. reflexivity.
  - intros Hnone. unfold_calls. unfold_M. unfold simpleGameOf, rd.
    rewrite Hnone. reflexivity.
Qed.

(** X10.  Cashing out an active game deactivates it and keeps the rest of
    the record.  On the plaintext ledger the wager is added back to the
    caller's balance (the call reverts with Panic(0x11) if the sum does not
    fit); on the encrypted ledger nothing is paid back: the balance handle is
    the one it was. *)
Theorem cashOut_settles msg block s :
  ((gameOf s msg.(sender)).(Game.isActive) = true →
   ∃ s', cashOut msg block s = Ok (tt, s')
     ∧ gameOf s' msg.(sender) = game_set_isActive (gameOf s msg.(sender)) false
     ∧ balanceOf s' msg.(sender) = balanceOf s msg.(sender)
     ∧ s'.(acl) = s.(acl))
  ∧ ((simpleGameOf s msg.(sender)).(SimpleGame.isActive) = true →
     (simpleBalanceOf s msg.(sender)
        + (simpleGameOf s msg.(sender)).(SimpleGame.wager) ≤ MAX_UINT256 →
      ∃ s', simpleCashOut msg block s = Ok (tt, s')
        ∧ simpleGameOf s' msg.(sender)
          = simpleGame_set_isActive (simpleGameOf s msg.(sender)) false
        ∧ simpleBalanceOf s' msg.(sender)
          = simpleBalanceOf s msg.(sender)
            + (simpleGameOf s msg.(sender)).(SimpleGame.wager))
     ∧ (MAX_UINT256 < simpleBalanceOf s msg.(sender)
                      + (simpleGameOf s msg.(sender)).(SimpleGame.wager) →
        simpleCashOut msg block s = Err Overflow)).
Proof.
  split.
  - intros Hact. unfold_calls. unfold_M. rewrite Hact. cbn [negb].
    eexists. split; [reflexivity|]. normalize. auto.
  - intros Hact. split.
    + intros Hfit. unfold_calls. unfold_M. rewrite Hact. cbn [negb].
      apply Z.leb_le in Hfit. rewrite Hfit. cbn [negb].
      eexists. split; [reflexivity|]. normalize. auto.
    + intros Hover. unfold_calls. unfold_M. rewrite Hact. cbn [negb].
      apply Z.leb_gt in Hover. rewrite Hover. reflexivity.
Qed.

(** ** Sequences of calls on the plaintext ledger *)

(** X11.  Starting a plaintext game and cashing it out, in any two blocks,
    gives the wager back: the caller's simple balance is what it was before
    the game, the game is inactive, and a second cash-out reverts. *)
Theorem simpleStartGame_then_cashOut msg block block' _wager s :
  (simpleGameOf s msg.(sender)).(SimpleGame.isActive) = false →
  _wager ≤ simpleBalanceOf s msg.(sender) →
  simpleBalanceOf s msg.(sender) ≤ MAX_UINT256 →
  ∃ s',
    (simpleStartGame msg block _wager ;; simpleCashOut msg block') s = Ok (tt, s')
    ∧ simpleBalanceOf s' msg.(sender) = simpleBalanceOf s msg.(sender)
    ∧ (simpleGameOf s' msg.(sender)).(SimpleGame.isActive) = false
    ∧ simpleCashOut msg block' s' = Err NoActiveGame.
Proof.
  intros Hact Hle Hmax. unfold_calls. unfold_M. rewrite Hact. cbn [negb].
  apply Z.leb_le in Hle. rewrite Hle. cbn [negb]. normalize.
  rewrite Hle. cbn [negb]. normalize. goal_simpl.
  rewrite Z.sub_add.
  apply Z.leb_le in Hmax. rewrite Hmax. cbn [negb].
  eexists. split; [reflexivity|]. normalize. auto.
Qed.

(** X12.  A plaintext game with one correct guess, then cashed out, pays
    the winnings on top of the returned wager: the caller ends with the
    balance before the game plus [(wager * 15) / 10].  The hypotheses are
    that the game can start, that the guess is correct for the card drawn in
    its block, and that no sum overflows. *)
Theorem simple_win_then_cashOut msg b1 b2 b3 _wager isHigher s :
  let card := card_of_hash (simpleStartGame_packed msg b1) in
  let newCard :=
    card_of_hash (simpleMakeGuess_packed msg b2 (secret_of msg b1 card)) in
  (simpleGameOf s msg.(sender)).(SimpleGame.isActive) = false →
  0 ≤ _wager ≤ simpleBalanceOf s msg.(sender) →
  guess_correct isHigher newCard card = true →
  _wager * 15 ≤ MAX_UINT256 →
  simpleBalanceOf s msg.(sender) + _wager * 15 / 10 ≤ MAX_UINT256 →
  ∃ s',
    (simpleStartGame msg b1 _wager ;; simpleMakeGuess msg b2 isHigher ;;
     simpleCashOut msg b3) s = Ok (tt, s')
    ∧ simpleBalanceOf s' msg.(sender)
      = simpleBalanceOf s msg.(sender) + _wager * 15 / 10
    ∧ simpleGameOf s' msg.(sender)
      = SimpleGame.mk msg.(sender) _wager newCard 1 false b1.(timestamp)
          (secret_of msg b1 card).
Proof.
  intros card newCard Hact [Hw0 Hle] Hc Hmul Hsum. subst card newCard.
  assert (Hdiv : 0 ≤ _wager * 15 / 10) by (apply Z.div_pos; lia).
  unfold_calls. unfold_M. rewrite Hact. cbn [negb].
  apply Z.leb_le in Hle. rewrite Hle. cbn [negb]. normalize. goal_simpl.
  rewrite Hle. cbn [negb]. normalize. goal_simpl.
  rewrite Hc. cbn [negb]. normalize. goal_simpl.
  replace (0 + 1 <=? MAX_UINT256) with true by reflexivity.
  cbn [negb]. normalize. goal_simpl.
  apply Z.leb_le in Hmul. rewrite Hmul. cbn [negb]. normalize. goal_simpl.
  apply Z.leb_le in Hle.
  rewrite (proj2 (Z.leb_le _ MAX_UINT256)) by lia.
  cbn [negb]. normalize. goal_simpl.
  rewrite (proj2 (Z.leb_le _ MAX_UINT256)) by lia.
  cbn [negb].
  eexists. split; [reflexivity|]. normalize. split; [lia|reflexivity].
Qed.

(** ** Two guesses in one block *)

(** X13.  The card of a guess depends only on the block, the caller and the
    game's secret, and a correct guess makes that card the current card.  A
    second guess by the same caller in the same block therefore draws the
    current card again and is incorrect in either direction: it returns
    [(false, card)] and ends the game.  This holds on both ledgers. *)
Theorem second_guess_in_block_loses msg block isHigher isHigher' s :
  ((gameOf s msg.(sender)).(Game.isActive) = true →
   ∀ s1 newCard,
     makeGuess msg block isHigher s = Ok ((true, newCard), s1) →
     ∃ s2, makeGuess msg block isHigher' s1 = Ok ((false, newCard), s2)
       ∧ (gameOf s2 msg.(sender)).(Game.isActive) = false
       ∧ balanceOf s2 msg.(sender) = balanceOf s1 msg.(sender))
  ∧ ((simpleGameOf s msg.(sender)).(SimpleGame.isActive) = true →
     ∀ s1 newCard,
       simpleMakeGuess msg block isHigher s = Ok ((true, newCard), s1) →
       ∃ s2, simpleMakeGuess msg block isHigher' s1 = Ok ((false, newCard), s2)
         ∧ (simpleGameOf s2 msg.(sender)).(SimpleGame.isActive) = false
         ∧ simpleBalanceOf s2 msg.(sender) = simpleBalanceOf s1 msg.(sender)).
Proof.
  split.
  - intros Hact s1 newCard H. unfold_calls. unfold_M.
    rewrite Hact in H. split_run H; [|discriminate H].
    injection H as <- <-. normalize. rewrite Hact.
    cbn [negb]. rewrite guess_correct_tie. cbn [negb].
    eexists. split; [reflexivity|]. normalize. auto.
  - intros Hact s1 newCard H. unfold_calls. unfold_M.
    rewrite Hact in H. cbn [negb] in H.
    destruct (guess_correct isHigher _ _) eqn:Hc; cbn [negb] in H;
      [|discriminate H].
    destruct (_ + 1 <=? MAX_UINT256) eqn:H1; cbn [negb] in H; [|discriminate H].
    normalize.
    destruct (_ * 15 <=? MAX_UINT256) eqn:H2; cbn [negb] in H; [|discriminate H].
    normalize.
    destruct (_ + _ <=? MAX_UINT256) eqn:H3 in H; cbn [negb] in H;
      [|discriminate H].
    injection H as <- <-. normalize. rewrite Hact.
    cbn [negb]. rewrite guess_correct_tie. cbn [negb].
    eexists. split; [reflexivity|]. normalize. auto.
Qed.

(** ** What a transaction leaves alone *)

(** X14.  A transaction writes only the storage of its caller and, for a
    transfer, of the recipient.  For any other principal the score, flag,
    simple balance and both game records are unchanged, and so are the
    encrypted balance, the deposit record and the activity time unless the
    transaction is a transfer to that principal. *)
Theorem exec_frame c msg block s s' p :
  exec c msg block s = Ok s' → p ≠ msg.(sender) →
  scoreOf s' p = scoreOf s p
  ∧ flagOf s' p = flagOf s p
  ∧ simpleBalanceOf s' p = simpleBalanceOf s p
  ∧ gameOf s' p = gameOf s p
  ∧ simpleGameOf s' p = simpleGameOf s p
  ∧ ((∀ A proof, c ≠ TransferEncrypted p A proof) →
     balanceOf s' p = balanceOf s p
     ∧ hasDepositOf s' p = hasDepositOf s p
     ∧ lastActivityOf s' p = lastActivityOf s p).
Proof.
  intros H Hp. run_call H.
  all: case_keys; st_simpl; try congruence.
  all: repeat (split; [reflexivity|]); try reflexivity.
  intros Hn. exfalso. eapply Hn. reflexivity.
Qed.


(** ** Activity *)

(** The functions that set [lastActivity[msg.sender]]. *)
Definition records_activity (c : Call) : bool :=
  match c with
  | DepositEncrypted _ _ | SimpleDeposit | PerformArithmetic _ _ _ _
  | TransferEncrypted _ _ _ | SetEncryptedFlag _ | IncrementScore
  | GrantAllPermissions | ResetUserData => true
  | FhevmDeposit | StartGame _ _ | MakeGuess _ | CashOut
  | SimpleStartGame _ | SimpleMakeGuess _ | SimpleCashOut => false
  end.

Lemma exec_lastActivity c msg block s s' :
  exec c msg block s = Ok s' →
  lastActivityOf s' msg.(sender)
  = if records_activity c then block.(timestamp) else lastActivityOf s msg.(sender).
Proof.
  intros H. run_call H.
  all: cbn [records_activity]; case_keys; try reflexivity; try congruence.
Qed.

(** X16.  After a successful transaction the caller's activity time is the
    block's timestamp when the function is one of the demo functions that
    record activity, and is unchanged for [fhevmDeposit] and for the seven
    game functions of both ledgers: playing does not count as activity. *)
Theorem lastActivity_tracking c msg block s s' :
  exec c msg block s = Ok s' →
  (records_activity c = true →
   lastActivityOf s' msg.(sender) = block.(timestamp))
  ∧ (records_activity c = false →
     lastActivityOf s' msg.(sender) = lastActivityOf s msg.(sender)).
Proof.
  intros H. rewrite (exec_lastActivity c msg block s s' H).
  split; intros ->; reflexivity.
Qed.

(** X17.  [getUserStatus] after a transaction that records activity: asked
    in a block not older than that transaction it returns the transaction's
    timestamp as last activity and reports the caller active exactly when
    less than 3600 seconds have passed; asked with an older timestamp the
    subtraction underflows and the view reverts with Panic(0x11). *)
Theorem getUserStatus_after_activity c msg block later s s' :
  exec c msg block s = Ok s' → records_activity c = true →
  (block.(timestamp) ≤ later.(timestamp) →
   getUserStatus msg later s'
   = Ok ((hasDepositOf s' msg.(sender), block.(timestamp),
          later.(timestamp) - block.(timestamp) <? 3600), s'))
  ∧ (later.(timestamp) < block.(timestamp) →
     getUserStatus msg later s' = Err Overflow).
Proof.
  intros H Hrec.
  pose proof (exec_lastActivity c msg block s s' H) as Hlast.
  rewrite Hrec in Hlast. clear H Hrec.
  split.
  - intros Hle. unfold getUserStatus. unfold_M. rewrite Hlast.
    apply Z.leb_le in Hle. rewrite Hle. reflexivity.
  - intros Hlt. unfold getUserStatus. unfold_M. rewrite Hlast.
    apply Z.leb_gt in Hlt. rewrite Hlt. reflexivity.
Qed.

(** ** The deposit record *)

(** X18.  [hasDeposit] of a principal is cleared only by that principal's
    own [resetUserData], and is set only by the principal's own deposit
    ([depositEncrypted], [simpleDeposit], [fhevmDeposit]) or by a transfer
    sent to the principal. *)
Theorem hasDeposit_lifecycle c msg block s s' p :
  exec c msg block s = Ok s' →
  (hasDepositOf s p = true → hasDepositOf s' p = false →
   c = ResetUserData ∧ msg.(sender) = p)
  ∧ (hasDepositOf s p = false → hasDepositOf s' p = true →
     (msg.(sender) = p
      ∧ (c = SimpleDeposit ∨ c = FhevmDeposit
         ∨ ∃ A proof, c = DepositEncrypted A proof))
     ∨ (∃ A proof, c = TransferEncrypted p A proof)).
Proof.
  intros H. run_call H.
  all: case_keys; st_simpl.
  all: split; intros H1 H2; try congruence; eauto 8.
Qed.

(** ** Game records in reachable states *)

(** A record stored for [p]: never written, or naming [p] as the player
    with a card between 1 and 13. *)
Definition game_ok (p : address) (g : Game.t) : Prop :=
  g = Game.zero ∨ (g.(Game.player) = p ∧ 1 ≤ g.(Game.currentCard) ≤ 13).

Definition simpleGame_ok (p : address) (g : SimpleGame.t) : Prop :=
  g = SimpleGame.zero
  ∨ (g.(SimpleGame.player) = p ∧ 1 ≤ g.(SimpleGame.currentCard) ≤ 13
     ∧ 0 ≤ g.(SimpleGame.score)).

Lemma exec_games_ok c msg block s s' p :
  exec c msg block s = Ok s' →
  game_ok p (gameOf s p) ∧ simpleGame_ok p (simpleGameOf s p) →
  game_ok p (gameOf s' p) ∧ simpleGame_ok p (simpleGameOf s' p).
Proof.
  intros H [Hg Hsg]. unfold game_ok, simpleGame_ok in *. run_call H.
  all: case_keys; st_simpl; try (split; assumption).
  all: split; try assumption.
  all: try (right; split; [reflexivity|]; try split; try reflexivity;
            try apply card_of_hash_range; lia).
  all: try (destruct Hg as [Hz|[Hpl Hcard]];
            [rewrite Hz in *; discriminate
            |right; st_simpl; split; [assumption|];
             first [assumption | apply card_of_hash_range]]).
  all: destruct Hsg as [Hz|(Hpl & Hcard & Hsc)];
         [rewrite Hz in *; discriminate
         |right; st_simpl; split; [assumption|]; split;
          [first [assumption | apply card_of_hash_range] | lia]].
Qed.

(** X19.  In every reachable state the game record stored for a principal,
    on either ledger, is either the untouched zero record or names that
    principal as its player and holds a card between 1 and 13; a plaintext
    game's score is never negative.  In particular every active game has a
    valid card. *)
Theorem reachable_games_ok s p :
  reachable s →
  game_ok p (gameOf s p) ∧ simpleGame_ok p (simpleGameOf s p)
  ∧ ((gameOf s p).(Game.isActive) = true →
     1 ≤ (gameOf s p).(Game.currentCard) ≤ 13)
  ∧ ((simpleGameOf s p).(SimpleGame.isActive) = true →
     1 ≤ (simpleGameOf s p).(SimpleGame.currentCard) ≤ 13).
Proof.
  intros Hr.
  assert (Hok : game_ok p (gameOf s p) ∧ simpleGame_ok p (simpleGameOf s p)).
  { induction Hr as [|c msg block s s' _ IH Hexec].
    - split; left; unfold gameOf, simpleGameOf, rd, init; st_simpl;
        rewrite lookup_empty; reflexivity.
    - exact (exec_games_ok c msg block s s' p Hexec IH). }
  destruct Hok as [Hg Hsg]. split; [exact Hg|]. split; [exact Hsg|]. split.
  - intros Hact. destruct Hg as [Hz|[_ Hc]]; [|exact Hc].
    rewrite Hz in Hact. discriminate Hact.
  - intros Hact. destruct Hsg as [Hz|(_ & Hc & _)]; [|exact Hc].
    rewrite Hz in Hact. discriminate Hact.
Qed.

(** ** The event log *)

(** X20.  The event log only grows: a successful transaction appends one
    event, or two for [depositEncrypted], and leaves the earlier events in
    place. *)
Theorem exec_appends_events c msg block s s' :
  exec c msg block s = Ok s' →
  ∃ l, s'.(events) = s.(events) ++ l
    ∧ length l = (match c with DepositEncrypted _ _ => 2 | _ => 1 end)%nat.
Proof.
  intros H. run_call H.
  all: rewrite <- ?app_assoc; eexists; split; [reflexivity|reflexivity].
Qed.

(** X21.  The event of a game call tells what the call did.  [startGame]
    and [simpleStartGame] log [GameStarted] with the card they stored; a guess
    logs [GameResult] with the card and the verdict it returns.  On the
    plaintext ledger the logged score is the score stored after the guess; on
    the encrypted ledger the logged score is always 0. *)
Theorem game_events_match msg block s s' :
  (∀ W proof,
     startGame msg block W proof s = Ok (tt, s') →
     s'.(events) = s.(events)
       ++ [GameStarted msg.(sender) (gameOf s' msg.(sender)).(Game.currentCard)
             block.(timestamp)])
  ∧ (∀ _wager,
       simpleStartGame msg block _wager s = Ok (tt, s') →
       s'.(events) = s.(events)
         ++ [GameStarted msg.(sender)
               (simpleGameOf s' msg.(sender)).(SimpleGame.currentCard)
               block.(timestamp)])
  ∧ (∀ isHigher correct newCard,
       makeGuess msg block isHigher s = Ok ((correct, newCard), s') →
       s'.(events) = s.(events)
         ++ [GameResult msg.(sender) newCard correct 0 block.(timestamp)])
  ∧ (∀ isHigher correct newCard,
       simpleMakeGuess msg block isHigher s = Ok ((correct, newCard), s') →
       s'.(events) = s.(events)
         ++ [GameResult msg.(sender) newCard correct
               (simpleGameOf s' msg.(sender)).(SimpleGame.score)
               block.(timestamp)]).
Proof.
  split; [|split; [|split]].
  - intros W proof H. unfold_calls. unfold_M. split_run H.
    injection H as <-. normalize. reflexivity.
  - intros _wager H. unfold_calls. unfold_M. split_run H.
    injection H as <-. normalize. reflexivity.
  - intros isHigher correct newCard H. unfold_calls. unfold_M. split_run H.
    + injection H as <- <- <-. normalize. reflexivity.
    + injection H as <- <- <-. normalize. reflexivity.
  - intros isHigher correct newCard H. unfold_calls. unfold_M.
    cbn [negb] in H.
    destruct (SimpleGame.isActive _) eqn:Hact; cbn [negb] in H; [|discriminate H].
    destruct (guess_correct isHigher _ _) eqn:Hc; cbn [negb] in H.
    + destruct (_ + 1 <=? MAX_UINT256) eqn:H1; cbn [negb] in H; [|discriminate H].
      normalize.
      destruct (_ * 15 <=? MAX_UINT256) eqn:H2; cbn [negb] in H; [|discriminate H].
      normalize.
      destruct (_ + _ <=? MAX_UINT256) eqn:H3 in H; cbn [negb] in H;
        [|discriminate H].
      injection H as <- <- <-. normalize. reflexivity.
    + injection H as <- <- <-. normalize. reflexivity.
Qed.

(** ** Unsigned values *)

Definition is_uint256 (x : Z) : Prop := 0 ≤ x ≤ MAX_UINT256.

(** The [uint256] values of the plaintext ledger of a principal. *)
Definition ledger_in_range (s : State) : Prop :=
  ∀ p, is_uint256 (simpleBalanceOf s p)
       ∧ is_uint256 (simpleGameOf s p).(SimpleGame.wager)
       ∧ is_uint256 (simpleGameOf s p).(SimpleGame.score).

(** The [uint256] inputs of a call, as the ABI decoder delivers them. *)
Definition call_in_range (c : Call) (msg : Msg) : Prop :=
  is_uint256 msg.(value)
  ∧ match c with
    | SimpleStartGame _wager => is_uint256 _wager
    | _ => True
    end.

(** X22.  The plaintext ledger stays within [uint256]: at deployment, and
    after every successful transaction whose inputs are [uint256] values,
    every simple balance, wager and score lies between 0 and 2^256 - 1.  No
    balance is ever negative: a debit is guarded, a credit that would not
    fit reverts. *)
Theorem ledger_stays_in_range :
  ledger_in_range init
  ∧ (∀ c msg block s s',
       ledger_in_range s → call_in_range c msg →
       exec c msg block s = Ok s' → ledger_in_range s').
Proof.
  split.
  - intros p. unfold is_uint256, simpleBalanceOf, simpleGameOf, rd, init. st_simpl.
    rewrite !lookup_empty. cbn. unfold MAX_UINT256. lia.
  - intros c msg block s s' Hs [Hv Hc] H p.
    destruct (Hs p) as (Hb & Hw & Hsc).
    destruct (Hs (sender msg)) as (Hb' & Hw' & Hsc').
    unfold is_uint256 in *. run_call H.
    all: repeat match goal with
                | E : (_ <=? _) = true |- _ => apply Z.leb_le in E
                | E : (_ <? _) = true |- _ => apply Z.ltb_lt in E
                end.
    all: case_keys; st_simpl; try (repeat split; lia).
    match goal with
    | |- context [Z.div (?x * 15) 10] =>
        assert (0 ≤ x * 15 / 10) by (apply Z.div_pos; lia)
    end.
    repeat split; lia.
Qed.

(** ** Starting an encrypted game *)

(** X23.  [startGame] checks, in this order, that the caller has no active
    encrypted game, that a deposit is recorded, and that the proof is
    accepted.  When all three hold it stores an active game for the caller
    with the validated wager, a score that decrypts to 0 and the drawn card;
    wager, score and the new balance are granted to the contract and the
    caller.  The plaintext game of the caller plays no part: it is neither
    tested nor changed. *)
Theorem startGame_starts msg block W proof s :
  (gameOf s msg.(sender)).(Game.isActive) = false →
  (hasDepositOf s msg.(sender) = false →
   startGame msg block W proof s = Err NoDepositOnRecord)
  ∧ (hasDepositOf s msg.(sender) = true → fromExternal W proof = None →
     startGame msg block W proof s = Err ProofVerificationFailed)
  ∧ (∀ wager,
       hasDepositOf s msg.(sender) = true → fromExternal W proof = Some wager →
       ∃ s', startGame msg block W proof s = Ok (tt, s')
         ∧ gameOf s' msg.(sender)
           = Game.mk _ msg.(sender) wager
               (card_of_hash (startGame_packed msg block)) (asEuint32 0) true
               block.(timestamp)
               (secret_of msg block (card_of_hash (startGame_packed msg block)))
         ∧ plain32 (gameOf s' msg.(sender)).(Game.score) = 0
         ∧ granted s' wager msg.(sender)
         ∧ granted s' (gameOf s' msg.(sender)).(Game.score) msg.(sender)
         ∧ granted s' (balanceOf s' msg.(sender)) msg.(sender)
         ∧ simpleGameOf s' msg.(sender) = simpleGameOf s msg.(sender)
         ∧ simpleBalanceOf s' msg.(sender) = simpleBalanceOf s msg.(sender)
         ∧ lastActivityOf s' msg.(sender) = lastActivityOf s msg.(sender)).
Proof.
  intros Hact. split; [|split].
  - intros Hdep. unfold_calls. unfold_M. rewrite Hact. cbn [negb].
    rewrite Hdep. reflexivity.
  - intros Hdep HW. unfold_calls. unfold_M. rewrite Hact. cbn [negb].
    rewrite Hdep. cbn [negb]. rewrite HW. reflexivity.
  - intros wager Hdep HW. unfold_calls. unfold_M. rewrite Hact. cbn [negb].
    rewrite Hdep. cbn [negb]. rewrite HW. cbn [negb].
    eexists. split; [reflexivity|]. normalize.
    split; [reflexivity|].
    split; [rewrite plain32_asEuint32; reflexivity|].
    split; [split; set_solver|]. split; [split; set_solver|].
    split; [split; set_solver|]. auto.
Qed.

(** X24.  On the encrypted ledger a cashed-out wager is not returned:
    after [startGame] and [cashOut] the caller's balance decrypts to
    (balance - wager) mod 2^32, the game is inactive and the deposit record
    stands. *)
Theorem startGame_then_cashOut msg block block' W proof wager s :
  (gameOf s msg.(sender)).(Game.isActive) = false →
  hasDepositOf s msg.(sender) = true →
  fromExternal W proof = Some wager →
  ∃ s', (startGame msg block W proof ;; cashOut msg block') s = Ok (tt, s')
    ∧ plain32 (balanceOf s' msg.(sender))
      = (plain32 (balanceOf s msg.(sender)) - plain32 wager) mod MOD32
    ∧ (gameOf s' msg.(sender)).(Game.isActive) = false
    ∧ hasDepositOf s' msg.(sender) = true.
Proof.
  intros Hact Hdep HW. unfold_calls. unfold_M. rewrite Hact. cbn [negb].
  rewrite Hdep. cbn [negb]. rewrite HW. cbn [negb]. normalize. goal_simpl.
  eexists. split; [reflexivity|]. normalize.
  split; [apply plain32_sub|]. split; [reflexivity|]. assumption.
Qed.

(** ** Arithmetic demo *)

(** X25.  [performArithmetic] validates the first operand, then the
    second, and reverts when either proof is rejected.  It needs no deposit,
    and it overwrites the score: the stored handle is built from the two
    operands alone, whatever the score was. *)
Theorem performArithmetic_overwrites msg block A B pA pB s :
  (fromExternal A pA = None →
   performArithmetic msg block A B pA pB s = Err ProofVerificationFailed)
  ∧ (∀ a, fromExternal A pA = Some a → fromExternal B pB = None →
     performArithmetic msg block A B pA pB s = Err ProofVerificationFailed)
  ∧ (∀ a b t s1 s2,
       fromExternal A pA = Some a → fromExternal B pB = Some b →
       performArithmetic msg block A B pA pB s = Ok (tt, s1) →
       performArithmetic msg block A B pA pB t = Ok (tt, s2) →
       scoreOf s1 msg.(sender) = scoreOf s2 msg.(sender)
       ∧ balanceOf s1 msg.(sender) = balanceOf s msg.(sender)
       ∧ hasDepositOf s1 msg.(sender) = hasDepositOf s msg.(sender)).
Proof.
  split; [|split].
  - intros HA. unfold_calls. unfold_M. rewrite HA. reflexivity.
  - intros a HA HB. unfold_calls. unfold_M. rewrite HA. cbn [negb].
    rewrite HB. reflexivity.
  - intros a b t s1 s2 HA HB H1 H2. unfold_calls. unfold_M.
    rewrite HA, HB in H1, H2. cbn [negb] in H1, H2.
    injection H1 as <-. injection H2 as <-. normalize. auto.
Qed.
End Contract.

(** ** Concrete runs

    The contract run on the reference FHE implementation, with the length of
    the packed input for a hash.  [alice] is the caller, [bob] a recipient;
    a script is a sequence of calls from the storage at deployment. *)
Section Examples.
#[local] Existing Instance RefFHE.fhe.
Import RefFHE.

Definition alice : address := 1.
Definition bob : address := 2.
Definition call : Msg := mkMsg alice 0.
Definition pay (v : uint256) : Msg := mkMsg alice v.
Definition blk : Block := mkBlock 100 7 5.
Definition proof1 : bytes := [x01].

(** The storage a script leaves; [init] if it reverts. *)
Definition state_after {A} (script : M A) : State :=
  match script init with
  | Ok (_, s) => s
  | Err _ => init
  end.

(** What a script returns. *)
Definition returned {A} (script : M A) : Result A :=
  match script init with
  | Ok (a, _) => Ok a
  | Err e => Err e
  end.

(** Closed facts are decided by evaluation. *)
Ltac by_compute :=
  first [ reflexivity
        | vm_compute; first [reflexivity | discriminate | exact I | congruence] ].

(** *** Operand order in performArithmetic *)

Definition score_plain (s : State) : Z := plain32 (scoreOf s alice).

Definition arithmetic_3_1 : M unit := performArithmetic self call blk 3 1 proof1 proof1.
Definition arithmetic_1_3 : M unit := performArithmetic self call blk 1 3 proof1 proof1.

(** C1, counterexample.  With operands 3 and 1 the stored score decrypts to
    (3+1) + (3-1) + 3*1 = 9; with the same operands swapped it decrypts to
    (1+3) + (1-3) + 1*3 = 5 modulo 2^32. *)
Lemma performArithmetic_order_matters :
  returned arithmetic_3_1 = Ok tt
  ∧ returned arithmetic_1_3 = Ok tt
  ∧ score_plain (state_after arithmetic_3_1) = 9
  ∧ score_plain (state_after arithmetic_1_3) = 5
  ∧ score_plain (state_after arithmetic_3_1)
    ≠ score_plain (state_after arithmetic_1_3).
Proof. repeat split; by_compute. Qed.

Lemma performArithmetic_score_witness :
  verify 3 proof1 = Some (Input 3)
  ∧ verify 1 proof1 = Some (Input 1)
  ∧ ∃ s1 s2,
    performArithmetic self call blk 3 1 proof1 proof1 init = Ok (tt, s1)
    ∧ performArithmetic self call blk 1 3 proof1 proof1 init = Ok (tt, s2)
    ∧ plain32 (scoreOf s1 alice) = 9
    ∧ plain32 (scoreOf s2 alice) = 5
    ∧ ¬ plain32 (scoreOf s1 alice) = plain32 (scoreOf s2 alice).
Proof.
  split; [by_compute|]. split; [by_compute|].
  destruct (performArithmetic_score (fhe:=fhe) self call blk 3 1 proof1 proof1
              (Input 3) (Input 1) init)
    as (s1 & s2 & R1 & R2 & P1 & P2 & _ & Hiff); [by_compute|by_compute|].
  exists s1, s2. split; [exact R1|]. split; [exact R2|].
  split; [etrans; [exact P1|by_compute]|].
  split; [etrans; [exact P2|by_compute]|].
  intros E. apply (proj1 Hiff) in E. vm_compute in E. discriminate E.
Defined.

(** *** Reset and the plaintext ledger *)

Definition deposit_5 : M unit := simpleDeposit (pay 5) blk.
Definition deposited_5 : State := Eval vm_compute in state_after deposit_5.

(** C2, counterexample.  After depositing 5 on the plaintext ledger and
    resetting, the caller's balance query [getSimpleBalance] still returns 5,
    not zero. *)
Lemma resetUserData_keeps_simple_balance :
  returned (deposit_5 ;; getSimpleBalance call) = Ok 5
  ∧ returned (deposit_5 ;; resetUserData self call blk ;; getSimpleBalance call)
    = Ok 5
  ∧ returned (deposit_5 ;; resetUserData self call blk ;; getSimpleBalance call)
    ≠ Ok 0.
Proof. repeat split; by_compute. Qed.

Lemma resetUserData_then_query_witness :
  blk.(timestamp) ≤ blk.(timestamp)
  ∧ ∃ s', resetUserData self call blk deposited_5 = Ok (tt, s')
      ∧ getUserStatus call blk s' = Ok ((false, 100, true), s')
      ∧ getSimpleBalance call s' = Ok (5, s').
Proof.
  split; [by_compute|].
  destruct (resetUserData_then_query (fhe:=fhe) self call blk deposited_5)
    as (s' & R & _ & _ & _ & _ & U & B & _).
  exists s'. split; [exact R|].
  split; [etrans; [apply (U blk); by_compute|by_compute]|].
  etrans; [exact B|by_compute].
Defined.

(** *** Debit below zero *)

Definition funded : State :=
  Eval vm_compute in state_after (fhevmDeposit self (pay (10 ^ 14)) blk).

Lemma confidential_debit_wraps_witness :
  bob ≠ alice
  ∧ hasDepositOf funded alice = true
  ∧ plain32 (balanceOf funded alice) = 1
  ∧ verify 5 proof1 = Some (Input 5)
  ∧ ∃ s', transferEncrypted self call blk bob 5 proof1 funded = Ok (tt, s')
      ∧ plain32 (balanceOf s' alice) = 4294967292.
Proof.
  split; [by_compute|]. split; [by_compute|]. split; [by_compute|].
  split; [by_compute|].
  destruct (confidential_debit_wraps (fhe:=fhe) len_hash self call blk funded)
    as (_ & _ & HT & _).
  destruct (HT bob 5 proof1 (Input 5)) as (s' & R & _ & W);
    [by_compute|by_compute|by_compute|].
  exists s'. split; [exact R|]. etrans; [apply W; by_compute|by_compute].
Defined.

(** *** A drawn card equal to the current card *)

(** After a deposit, a game and a correct "lower" guess the current card is 6,
    the card every later draw of this block gives. *)
Definition tied : State :=
  Eval vm_compute in
  state_after (fhevmDeposit self (pay (10 ^ 14)) blk ;;
               startGame len_hash self call blk 1 proof1 ;;
               makeGuess len_hash self call blk false).

(** After a deposit, a game and a correct "higher" guess the current card is
    13, the card every later draw of this block gives. *)
Definition simple_tied : State :=
  Eval vm_compute in
  state_after (simpleDeposit (pay 100) blk ;;
               simpleStartGame len_hash call blk 10 ;;
               simpleMakeGuess len_hash call blk true).

Lemma tie_is_incorrect_witness :
  (gameOf tied alice).(Game.isActive) = true
  ∧ (gameOf tied alice).(Game.currentCard) = 6
  ∧ card_of_hash len_hash
      (makeGuess_packed call blk (gameOf tied alice).(Game.gameSecret)) = 6
  ∧ (∃ s', makeGuess len_hash self call blk true tied = Ok ((false, 6), s'))
  ∧ (simpleGameOf simple_tied alice).(SimpleGame.isActive) = true
  ∧ (simpleGameOf simple_tied alice).(SimpleGame.currentCard) = 13
  ∧ card_of_hash len_hash
      (simpleMakeGuess_packed call blk
         (simpleGameOf simple_tied alice).(SimpleGame.gameSecret)) = 13
  ∧ (∃ s', simpleMakeGuess len_hash call blk false simple_tied
           = Ok ((false, 13), s')).
Proof.
  split; [by_compute|]. split; [by_compute|]. split; [by_compute|].
  split.
  { destruct (tie_is_incorrect (fhe:=fhe) len_hash self call blk true tied)
      as [H _].
    destruct H as (s' & R & _); [by_compute|by_compute|].
    exists s'. exact R. }
  split; [by_compute|]. split; [by_compute|]. split; [by_compute|].
  destruct (tie_is_incorrect (fhe:=fhe) len_hash self call blk false simple_tied)
    as [_ H].
  destruct H as (s' & R & _); [by_compute|by_compute|].
  exists s'. exact R.
Defined.

(** *** Guesses on the plaintext ledger *)

Definition playing : State :=
  Eval vm_compute in
  state_after (simpleDeposit (pay 100) blk ;; simpleStartGame len_hash call blk 10).

Definition huge : uint256 := 2 ^ 255.

Definition playing_huge : State :=
  Eval vm_compute in
  state_after (simpleDeposit (pay huge) blk ;; simpleStartGame len_hash call blk huge).

(** C5, counterexample.  A caller deposits 2^255 and starts a game with that
    wager; the starting card is 7.  The next draw is 13, so "higher" is a
    correct guess, but [wager * 15] exceeds 2^256 - 1: the call reverts with
    Panic(0x11), the score is not incremented and nothing is credited. *)
Lemma simpleMakeGuess_correct_guess_reverts :
  exec len_hash self SimpleDeposit (pay huge) blk init
    = Ok (state_after (simpleDeposit (pay huge) blk))
  ∧ exec len_hash self (SimpleStartGame huge) call blk
      (state_after (simpleDeposit (pay huge) blk)) = Ok playing_huge
  ∧ (simpleGameOf playing_huge alice).(SimpleGame.isActive) = true
  ∧ (simpleGameOf playing_huge alice).(SimpleGame.currentCard) = 7
  ∧ card_of_hash len_hash
      (simpleMakeGuess_packed call blk
         (simpleGameOf playing_huge alice).(SimpleGame.gameSecret)) = 13
  ∧ simpleMakeGuess len_hash call blk true playing_huge = Err Overflow
  ∧ exec len_hash self (SimpleMakeGuess true) call blk playing_huge = Err Overflow.
Proof. repeat split; by_compute. Qed.

Lemma simpleMakeGuess_settles_witness :
  (simpleGameOf playing alice).(SimpleGame.isActive) = true
  ∧ simpleBalanceOf playing alice = 90
  ∧ (simpleGameOf playing alice).(SimpleGame.currentCard) = 7
  ∧ card_of_hash len_hash
      (simpleMakeGuess_packed call blk
         (simpleGameOf playing alice).(SimpleGame.gameSecret)) = 13
  ∧ ∃ s', simpleMakeGuess len_hash call blk true playing = Ok ((true, 13), s')
      ∧ simpleGameOf s' alice = SimpleGame.mk alice 10 13 1 true 100 53
      ∧ simpleBalanceOf s' alice = 105.
Proof.
  split; [by_compute|]. split; [by_compute|].
  split; [by_compute|]. split; [by_compute|].
  destruct (simpleMakeGuess_settles (fhe:=fhe) len_hash call blk true playing)
    as (H & _); [by_compute|].
  destruct H as (s' & R & G & B); [by_compute|by_compute|by_compute|by_compute|].
  exists s'. split; [etrans; [exact R|by_compute]|].
  split; [etrans; [exact G|by_compute]|etrans; [exact B|by_compute]].
Defined.

(** *** One game at a time *)

Lemma one_active_game_per_principal_witness :
  (gameOf tied alice).(Game.isActive) = true
  ∧ startGame len_hash self call blk 1 proof1 tied = Err GameAlreadyActive
  ∧ (simpleGameOf playing alice).(SimpleGame.isActive) = true
  ∧ simpleStartGame len_hash call blk 10 playing = Err GameAlreadyActive.
Proof.
  destruct (one_active_game_per_principal (fhe:=fhe) len_hash self)
    as (H1 & H2 & _).
  split; [by_compute|]. split; [apply H1; by_compute|].
  split; [by_compute|]. apply H2; by_compute.
Defined.

(** *** Grants after a deposit *)

Definition deposited : State :=
  Eval vm_compute in
  state_after (depositEncrypted self (pay 1) blk 5 proof1).

Lemma replaced_handles_are_granted_witness :
  exec len_hash self (DepositEncrypted 5 proof1) (pay 1) blk init = Ok deposited
  ∧ balanceOf deposited alice ≠ balanceOf init alice
  ∧ granted self deposited (balanceOf deposited alice) alice.
Proof.
  assert (E : exec len_hash self (DepositEncrypted 5 proof1) (pay 1) blk init
              = Ok deposited) by by_compute.
  assert (N : balanceOf deposited alice ≠ balanceOf init alice) by by_compute.
  split; [exact E|]. split; [exact N|].
  destruct (replaced_handles_are_granted (fhe:=fhe) len_hash self) as [H _].
  destruct (H _ _ _ _ _ alice E) as [(Hb & _) _]. exact (Hb N).
Defined.

(** *** Starting a plaintext game *)

Definition funded_100 : State :=
  Eval vm_compute in state_after (simpleDeposit (pay 100) blk).

Lemma simpleStartGame_debits_witness :
  (simpleGameOf funded_100 alice).(SimpleGame.isActive) = false
  ∧ simpleBalanceOf funded_100 alice = 100
  ∧ simpleStartGame len_hash call blk 101 funded_100 = Err InsufficientBalance
  ∧ ∃ s', simpleStartGame len_hash call blk 10 funded_100 = Ok (tt, s')
      ∧ simpleBalanceOf s' alice = 90
      ∧ simpleGameOf s' alice = SimpleGame.mk alice 10 7 0 true 100 53.
Proof.
  split; [by_compute|]. split; [by_compute|].
  split.
  { apply (simpleStartGame_debits (fhe:=fhe) len_hash call blk 101 funded_100);
      by_compute. }
  destruct (simpleStartGame_debits (fhe:=fhe) len_hash call blk 10 funded_100)
    as [_ H]; [by_compute|].
  destruct H as (s' & R & B & G & _); [by_compute|].
  exists s'. split; [exact R|].
  split; [etrans; [exact B|by_compute]|etrans; [exact G|by_compute]].
Defined.

(** *** Cards *)

Definition started : State :=
  Eval vm_compute in
  state_after (fhevmDeposit self (pay (10 ^ 14)) blk ;;
               startGame len_hash self call blk 1 proof1).

Lemma drawn_card_in_range_witness :
  startGame len_hash self call blk 1 proof1 funded = Ok (tt, started)
  ∧ (gameOf started alice).(Game.currentCard) = 13
  ∧ 1 ≤ (gameOf started (sender call)).(Game.currentCard) ≤ 13.
Proof.
  assert (E : startGame len_hash self call blk 1 proof1 funded = Ok (tt, started))
    by by_compute.
  split; [exact E|]. split; [by_compute|].
  destruct (drawn_card_in_range (fhe:=fhe) len_hash self) as (_ & H & _).
  exact (H _ _ _ _ _ _ E).
Defined.

(** *** Grants for a caller without a deposit *)





(** *** Runs for the further properties *)

Lemma simpleDeposit_credits_witness :
  0 < (pay 5).(value)
  ∧ simpleBalanceOf init alice + (pay 5).(value) ≤ MAX_UINT256
  ∧ ∃ s', simpleDeposit (pay 5) blk init = Ok (tt, s')
      ∧ simpleBalanceOf s' alice = 5.
Proof.
  split; [by_compute|]. split; [by_compute|].
  destruct (simpleDeposit_credits (fhe:=fhe) (pay 5) blk init) as (_ & _ & H).
  destruct H as (s' & R & B & _); [by_compute|by_compute|].
  exists s'. split; [exact R|]. etrans; [exact B|by_compute].
Defined.

Lemma depositEncrypted_credits_witness :
  0 < (pay 1).(value)
  ∧ verify 5 proof1 = Some (Input 5)
  ∧ ∃ s', depositEncrypted self (pay 1) blk 5 proof1 init = Ok (tt, s')
      ∧ plain32 (balanceOf s' alice) = 5.
Proof.
  split; [by_compute|]. split; [by_compute|].
  destruct (depositEncrypted_credits (fhe:=fhe) self (pay 1) blk 5 proof1 init)
    as (_ & _ & H & _).
  destruct (H (Input 5)) as (s' & R & _ & P & _); [by_compute|by_compute|].
  exists s'. split; [exact R|]. etrans; [exact P|by_compute].
Defined.

Lemma fhevmDeposit_scales_witness :
  0 < (pay 5).(value) ∧ (pay 5).(value) < 10 ^ 14
  ∧ ∃ s', fhevmDeposit self (pay 5) blk init = Ok (tt, s')
      ∧ hasDepositOf s' alice = true
      ∧ plain32 (balanceOf s' alice) = 0.
Proof.
  split; [by_compute|]. split; [by_compute|].
  destruct (fhevmDeposit_scales (fhe:=fhe) self (pay 5) blk init) as [_ H].
  destruct H as (s' & R & _ & _ & D & _ & S); [by_compute|].
  exists s'. split; [exact R|]. split; [exact D|].
  etrans; [apply S; by_compute|by_compute].
Defined.

Lemma incrementScore_adds_one_witness :
  hasDepositOf funded alice = true
  ∧ ∃ s', incrementScore self call blk funded = Ok (tt, s')
      ∧ plain32 (scoreOf s' alice) = 1.
Proof.
  split; [by_compute|].
  destruct (incrementScore_adds_one (fhe:=fhe) self call blk funded) as [_ H].
  destruct H as (s' & R & P & _); [by_compute|].
  exists s'. split; [exact R|]. etrans; [exact P|by_compute].
Defined.

Lemma transferEncrypted_moves_witness :
  bob ≠ alice
  ∧ hasDepositOf funded alice = true
  ∧ verify 1 proof1 = Some (Input 1)
  ∧ ∃ s', transferEncrypted self call blk bob 1 proof1 funded = Ok (tt, s')
      ∧ plain32 (balanceOf s' alice) = 0
      ∧ plain32 (balanceOf s' bob) = 1
      ∧ hasDepositOf s' bob = true.
Proof.
  split; [by_compute|]. split; [by_compute|]. split; [by_compute|].
  destruct (transferEncrypted_moves (fhe:=fhe) self call blk bob 1 proof1 funded)
    as (_ & _ & H); [by_compute|].
  destruct (H (Input 1)) as (s' & R & P1 & P2 & _ & _ & _ & D & _);
    [by_compute|by_compute|].
  exists s'. split; [exact R|].
  split; [etrans; [exact P1|by_compute]|].
  split; [etrans; [exact P2|by_compute]|exact D].
Defined.

Lemma makeGuess_settles_witness :
  (gameOf started alice).(Game.isActive) = true
  ∧ (gameOf started alice).(Game.currentCard) = 13
  ∧ plain32 (balanceOf started alice) = 0
  ∧ ∃ s', makeGuess len_hash self call blk false started = Ok ((true, 6), s')
      ∧ plain32 (gameOf s' alice).(Game.score) = 1
      ∧ plain32 (balanceOf s' alice) = 2.
Proof.
  split; [by_compute|]. split; [by_compute|]. split; [by_compute|].
  destruct (makeGuess_settles (fhe:=fhe) len_hash self call blk false started)
    as [H _]; [by_compute|].
  destruct H as (s' & R & _ & S & B); [by_compute|].
  exists s'. split; [exact R|].
  split; [etrans; [exact S|by_compute]|etrans; [exact B|by_compute]].
Defined.

Lemma no_active_game_reverts_witness :
  init.(simpleGames) !! alice = None
  ∧ simpleMakeGuess len_hash call blk true init = Err NoActiveGame
  ∧ (gameOf init alice).(Game.isActive) = false
  ∧ cashOut call blk init = Err NoActiveGame.
Proof.
  destruct (no_active_game_reverts (fhe:=fhe) len_hash self call blk true init)
    as (H1 & _ & _ & H4).
  split; [by_compute|]. split; [apply H4; by_compute|].
  split; [by_compute|]. apply H1. by_compute.
Defined.

Lemma cashOut_settles_witness :
  (simpleGameOf playing alice).(SimpleGame.isActive) = true
  ∧ simpleBalanceOf playing alice = 90
  ∧ (simpleGameOf playing alice).(SimpleGame.wager) = 10
  ∧ ∃ s', simpleCashOut call blk playing = Ok (tt, s')
      ∧ simpleBalanceOf s' alice = 100.
Proof.
  split; [by_compute|]. split; [by_compute|]. split; [by_compute|].
  destruct (cashOut_settles (fhe:=fhe) call blk playing) as [_ H].
  destruct H as [H _]; [by_compute|].
  destruct H as (s' & R & _ & B); [by_compute|].
  exists s'. split; [exact R|]. etrans; [exact B|by_compute].
Defined.

Lemma simpleStartGame_then_cashOut_witness :
  (simpleGameOf funded_100 alice).(SimpleGame.isActive) = false
  ∧ 10 ≤ simpleBalanceOf funded_100 alice
  ∧ ∃ s', (simpleStartGame len_hash call blk 10 ;; simpleCashOut call blk) funded_100
          = Ok (tt, s')
      ∧ simpleBalanceOf s' alice = 100.
Proof.
  split; [by_compute|]. split; [by_compute|].
  destruct (simpleStartGame_then_cashOut (fhe:=fhe) len_hash call blk blk 10
              funded_100) as (s' & R & B & _); [by_compute|by_compute|by_compute|].
  exists s'. split; [exact R|]. etrans; [exact B|by_compute].
Defined.

Lemma simple_win_then_cashOut_witness :
  guess_correct true 13 7 = true
  ∧ ∃ s', (simpleStartGame len_hash call blk 10 ;;
           simpleMakeGuess len_hash call blk true ;;
           simpleCashOut call blk) funded_100 = Ok (tt, s')
      ∧ simpleBalanceOf s' alice = 115.
Proof.
  split; [by_compute|].
  destruct (simple_win_then_cashOut (fhe:=fhe) len_hash call blk blk blk 10 true
              funded_100) as (s' & R & B & _);
    [by_compute|split; by_compute|by_compute|by_compute|by_compute|].
  exists s'. split; [exact R|]. etrans; [exact B|by_compute].
Defined.

Lemma second_guess_in_block_loses_witness :
  (simpleGameOf playing alice).(SimpleGame.isActive) = true
  ∧ simpleMakeGuess len_hash call blk true playing = Ok ((true, 13), simple_tied)
  ∧ ∃ s2, simpleMakeGuess len_hash call blk true simple_tied
          = Ok ((false, 13), s2)
      ∧ (simpleGameOf s2 alice).(SimpleGame.isActive) = false.
Proof.
  assert (E : simpleMakeGuess len_hash call blk true playing
              = Ok ((true, 13), simple_tied)) by by_compute.
  split; [by_compute|]. split; [exact E|].
  destruct (second_guess_in_block_loses (fhe:=fhe) len_hash self call blk true true
              playing) as [_ H].
  destruct (H ltac:(by_compute) simple_tied 13 E) as (s2 & R & A & _).
  exists s2. split; [exact R|exact A].
Defined.

Lemma exec_frame_witness :
  exec len_hash self SimpleDeposit (pay 5) blk init = Ok deposited_5
  ∧ bob ≠ (pay 5).(sender)
  ∧ simpleBalanceOf deposited_5 bob = simpleBalanceOf init bob
  ∧ hasDepositOf deposited_5 bob = hasDepositOf init bob.
Proof.
  assert (E : exec len_hash self SimpleDeposit (pay 5) blk init = Ok deposited_5)
    by by_compute.
  assert (N : bob ≠ (pay 5).(sender)) by by_compute.
  split; [exact E|]. split; [exact N|].
  destruct (exec_frame (fhe:=fhe) len_hash self _ _ _ _ _ bob E N)
    as (_ & _ & B & _ & _ & F).
  split; [exact B|]. apply F. discriminate.
Defined.

Lemma lastActivity_tracking_witness :
  exec len_hash self SimpleDeposit (pay 5) blk init = Ok deposited_5
  ∧ records_activity SimpleDeposit = true
  ∧ lastActivityOf deposited_5 alice = 100.
Proof.
  assert (E : exec len_hash self SimpleDeposit (pay 5) blk init = Ok deposited_5)
    by by_compute.
  split; [exact E|]. split; [reflexivity|].
  destruct (lastActivity_tracking (fhe:=fhe) len_hash self _ _ _ _ _ E) as [H _].
  exact (H eq_refl).
Defined.

Lemma getUserStatus_after_activity_witness :
  exec len_hash self SimpleDeposit (pay 5) blk init = Ok deposited_5
  ∧ getUserStatus call (mkBlock 3699 7 6) deposited_5
    = Ok ((hasDepositOf deposited_5 alice, 100, true), deposited_5)
  ∧ getUserStatus call (mkBlock 3700 7 6) deposited_5
    = Ok ((hasDepositOf deposited_5 alice, 100, false), deposited_5)
  ∧ getUserStatus call (mkBlock 99 7 4) deposited_5 = Err Overflow.
Proof.
  assert (E : exec len_hash self SimpleDeposit (pay 5) blk init = Ok deposited_5)
    by by_compute.
  split; [exact E|].
  split; [|split].
  - apply (getUserStatus_after_activity (fhe:=fhe) len_hash self _ (pay 5) blk
             (mkBlock 3699 7 6) _ _ E eq_refl). by_compute.
  - apply (getUserStatus_after_activity (fhe:=fhe) len_hash self _ (pay 5) blk
             (mkBlock 3700 7 6) _ _ E eq_refl). by_compute.
  - apply (getUserStatus_after_activity (fhe:=fhe) len_hash self _ (pay 5) blk
             (mkBlock 99 7 4) _ _ E eq_refl). by_compute.
Defined.

Definition funded_reset : State :=
  Eval vm_compute in
  state_after (fhevmDeposit self (pay (10 ^ 14)) blk ;; resetUserData self call blk).

Lemma hasDeposit_lifecycle_witness :
  exec len_hash self ResetUserData call blk funded = Ok funded_reset
  ∧ hasDepositOf funded alice = true
  ∧ hasDepositOf funded_reset alice = false
  ∧ call.(sender) = alice.
Proof.
  assert (E : exec len_hash self ResetUserData call blk funded = Ok funded_reset)
    by by_compute.
  split; [exact E|]. split; [by_compute|]. split; [by_compute|].
  destruct (hasDeposit_lifecycle (fhe:=fhe) len_hash self _ _ _ _ _ alice E)
    as [H _].
  destruct H as [_ S]; [by_compute|by_compute|exact S].
Defined.

Lemma reachable_games_ok_witness :
  reachable len_hash self playing
  ∧ (simpleGameOf playing alice).(SimpleGame.isActive) = true
  ∧ 1 ≤ (simpleGameOf playing alice).(SimpleGame.currentCard) ≤ 13.
Proof.
  assert (R : reachable len_hash self playing).
  { apply (reachable_step len_hash self (SimpleStartGame 10) call blk funded_100);
      [|by_compute].
    apply (reachable_step len_hash self SimpleDeposit (pay 100) blk init);
      [apply reachable_init|by_compute]. }
  assert (A : (simpleGameOf playing alice).(SimpleGame.isActive) = true)
    by by_compute.
  split; [exact R|]. split; [exact A|].
  destruct (reachable_games_ok (fhe:=fhe) len_hash self playing alice R)
    as (_ & _ & _ & H).
  exact (H A).
Defined.

Lemma exec_appends_events_witness :
  exec len_hash self (DepositEncrypted 5 proof1) (pay 1) blk init = Ok deposited
  ∧ ∃ l, deposited.(events) = init.(events) ++ l ∧ length l = 2%nat.
Proof.
  assert (E : exec len_hash self (DepositEncrypted 5 proof1) (pay 1) blk init
              = Ok deposited) by by_compute.
  split; [exact E|].
  exact (exec_appends_events (fhe:=fhe) len_hash self _ _ _ _ _ E).
Defined.

Lemma game_events_match_witness :
  simpleStartGame len_hash call blk 10 funded_100 = Ok (tt, playing)
  ∧ playing.(events)
    = funded_100.(events) ++ [GameStarted alice 7 100].
Proof.
  assert (E : simpleStartGame len_hash call blk 10 funded_100 = Ok (tt, playing))
    by by_compute.
  split; [exact E|].
  destruct (game_events_match (fhe:=fhe) len_hash self call blk funded_100 playing)
    as (_ & H & _).
  etrans; [exact (H 10 E)|by_compute].
Defined.

Lemma ledger_stays_in_range_witness :
  call_in_range SimpleDeposit (pay 5)
  ∧ exec len_hash self SimpleDeposit (pay 5) blk init = Ok deposited_5
  ∧ is_uint256 (simpleBalanceOf deposited_5 alice).
Proof.
  assert (C : call_in_range SimpleDeposit (pay 5)).
  { split; [split; by_compute|exact I]. }
  assert (E : exec len_hash self SimpleDeposit (pay 5) blk init = Ok deposited_5)
    by by_compute.
  split; [exact C|]. split; [exact E|].
  destruct (ledger_stays_in_range (fhe:=fhe) len_hash self) as [H0 H].
  exact (proj1 (H _ _ _ _ _ H0 C E alice)).
Defined.

Lemma startGame_starts_witness :
  (gameOf funded alice).(Game.isActive) = false
  ∧ hasDepositOf funded alice = true
  ∧ verify 1 proof1 = Some (Input 1)
  ∧ ∃ s', startGame len_hash self call blk 1 proof1 funded = Ok (tt, s')
      ∧ (gameOf s' alice).(Game.currentCard) = 13
      ∧ plain32 (gameOf s' alice).(Game.score) = 0.
Proof.
  split; [by_compute|]. split; [by_compute|]. split; [by_compute|].
  destruct (startGame_starts (fhe:=fhe) len_hash self call blk 1 proof1 funded)
    as (_ & _ & H); [by_compute|].
  destruct (H (Input 1)) as (s' & R & G & P & _); [by_compute|by_compute|].
  exists s'. split; [exact R|]. split; [|exact P].
  etrans; [exact (f_equal Game.currentCard G)|by_compute].
Defined.

Lemma startGame_then_cashOut_witness :
  (gameOf funded alice).(Game.isActive) = false
  ∧ hasDepositOf funded alice = true
  ∧ plain32 (balanceOf funded alice) = 1
  ∧ ∃ s', (startGame len_hash self call blk 1 proof1 ;; cashOut call blk) funded
          = Ok (tt, s')
      ∧ plain32 (balanceOf s' alice) = 0.
Proof.
  split; [by_compute|]. split; [by_compute|]. split; [by_compute|].
  destruct (startGame_then_cashOut (fhe:=fhe) len_hash self call blk blk 1 proof1
              (Input 1) funded) as (s' & R & B & _);
    [by_compute|by_compute|by_compute|].
  exists s'. split; [exact R|]. etrans; [exact B|by_compute].
Defined.

Lemma performArithmetic_overwrites_witness :
  verify 3 [] = None
  ∧ performArithmetic self call blk 3 1 [] proof1 init = Err ProofVerificationFailed.
Proof.
  split; [by_compute|].
  destruct (performArithmetic_overwrites (fhe:=fhe) self call blk 3 1 [] proof1 init)
    as [H _].
  apply H. by_compute.
Defined.

End Examples.
